(** * smartDevice.js: a shallow embedding of the smart-home hub

    The development follows [src/smartDevice.js] class by class:
    the JavaScript built-ins the file relies on ([String.prototype.split],
    [parseInt], template literals), the device objects living in a heap of
    shared references, the [Subject]/[Observer] pair, the factory, the
    scheduler, the automation engine and the [SmartHomeSystem] hub.

    Every method of the source is a computation in a small state-and-exception
    monad [JS]: statements mutate the world, [throw] aborts the rest of the
    call and keeps the mutations that were already done. *)

From Stdlib Require Import ZArith String Ascii List Bool Lia DecimalString.
From Stdlib Require Import DecimalPos.
From stdpp Require Import base list.
Import ListNotations.

Open Scope string_scope.
Open Scope list_scope.

(** ** JavaScript built-ins used by the source *)

(** Characters are code units below 256; the white space of
    [StrWhiteSpaceChar] in that range is TAB, LF, VT, FF, CR, SP and NBSP. *)
Definition is_white_space (c : ascii) : bool :=
  let n := nat_of_ascii c in
  Nat.eqb n 9 || Nat.eqb n 10 || Nat.eqb n 11 || Nat.eqb n 12
  || Nat.eqb n 13 || Nat.eqb n 32 || Nat.eqb n 160.

Fixpoint trim_start (s : string) : string :=
  match s with
  | String c s' => if is_white_space c then trim_start s' else s
  | EmptyString => s
  end.

(** Value of a character as a digit: 0-9, then a-z / A-Z for 10-35. *)
Definition digit_value (c : ascii) : option Z :=
  let n := Z.of_nat (nat_of_ascii c) in
  if (48 <=? n)%Z && (n <=? 57)%Z then Some (n - 48)%Z
  else if (97 <=? n)%Z && (n <=? 122)%Z then Some (n - 87)%Z
  else if (65 <=? n)%Z && (n <=? 90)%Z then Some (n - 55)%Z
  else None.

Definition radix_digit (R : Z) (c : ascii) : option Z :=
  match digit_value c with
  | Some v => if (v <? R)%Z then Some v else None
  | None => None
  end.

(** Longest prefix of radix-[R] digits, read as a number; [acc] is [None]
    until a first digit has been seen. *)
Fixpoint parse_digits (R : Z) (acc : option Z) (s : string) : option Z :=
  match s with
  | String c s' =>
      match radix_digit R c with
      | Some v => parse_digits R (Some (R * default 0%Z acc + v)%Z) s'
      | None => acc
      end
  | EmptyString => acc
  end.

(** [parseInt(string)] with no radix argument.  [None] is NaN.  The result
    is the exact integer the digits denote.  A JavaScript number is that
    integer as long as it is a safe integer (below 2^53 in absolute value);
    beyond, JavaScript rounds to the nearest double, and statements about
    particular numbers carry [safe_integer]. *)
Definition parseInt (input : string) : option Z :=
  let S0 := trim_start input in
  let '(sign, S1) :=
    match S0 with
    | String "-" r => ((-1)%Z, r)
    | String "+" r => (1%Z, r)
    | _ => (1%Z, S0)
    end in
  let '(R, S2) :=
    match S1 with
    | String "0" (String "x" r) => (16%Z, r)
    | String "0" (String "X" r) => (16%Z, r)
    | _ => (10%Z, S1)
    end in
  match parse_digits R None S2 with
  | Some m => Some (sign * m)%Z
  | None => None
  end.

(** [s.split(sep)] for a one-character separator: the pieces between the
    occurrences of [sep], empty pieces included; never an empty array. *)
Fixpoint str_split (sep : ascii) (s : string) : list string :=
  match s with
  | EmptyString => [EmptyString]
  | String c s' =>
      if Ascii.eqb c sep then EmptyString :: str_split sep s'
      else match str_split sep s' with
           | piece :: pieces => String c piece :: pieces
           | [] => [String c EmptyString]
           end
  end.

(** A template literal is the concatenation of its parts. *)
Definition template (parts : list string) : string := String.concat "" parts.

(** [a.join(sep)] on an array of strings. *)
Definition join (sep : string) (a : list string) : string := String.concat sep a.

(** [ToString] of an integer number: its decimal digits, with a leading
    minus sign when negative.  That is what JavaScript prints for a safe
    integer (below 2^53 in absolute value); larger numbers are printed
    from their shortest digits, in exponent form from 10^21 on, and
    statements about printed digits carry [safe_integer]. *)
Definition number_to_string (n : Z) : string :=
  NilZero.string_of_int (Z.to_int n).

(** [ToString] of a value that may be [undefined]. *)
Definition string_or_undefined (v : option string) : string :=
  match v with Some s => s | None => "undefined" end.

(** [===] between two values each of which may be [undefined] and a string
    constant. *)
Definition token_is (v : option string) (lit : string) : bool :=
  match v with Some s => String.eqb s lit | None => false end.

(** [a > b] on numbers, [None] standing for NaN (and for [undefined], which
    [>] converts to NaN). *)
Definition js_gt (a b : option Z) : bool :=
  match a, b with
  | Some x, Some y => (y <? x)%Z
  | _, _ => false
  end.

(** ** Values and objects *)

(** Device identifiers as the callers pass them: numbers or strings. *)
Inductive JsId : Type :=
| IdNum (n : Z)
| IdStr (s : string).

(** [a === b] *)
Definition strict_eq (a b : JsId) : bool :=
  match a, b with
  | IdNum x, IdNum y => (x =? y)%Z
  | IdStr x, IdStr y => String.eqb x y
  | _, _ => false
  end.

Definition id_to_string (v : JsId) : string :=
  match v with
  | IdNum n => number_to_string n
  | IdStr s => s
  end.

(** The class an object was constructed by; it selects the methods. *)
Inductive DeviceClass : Type := Light | Thermostat | DoorLock.

(** The fields of a device object.  [temperature] is absent ([None]) on
    objects that are not thermostats. *)
Record SmartDevice : Type := mkSmartDevice {
  class : DeviceClass;
  id : JsId;
  type : string;
  status : string;
  temperature : option Z
}.

Definition set_status (s : string) (d : SmartDevice) : SmartDevice :=
  {| class := class d; id := id d; type := type d; status := s;
     temperature := temperature d |}.

Definition set_temperature (t : Z) (d : SmartDevice) : SmartDevice :=
  {| class := class d; id := id d; type := type d; status := status d;
     temperature := Some t |}.

(** Objects are shared: arrays and tasks hold references into the heap. *)
Definition ref : Type := nat.

Record ScheduledTask : Type := mkTask {
  device : ref;
  time : string;
  command : string
}.

Record Trigger : Type := mkTrigger {
  condition : string;
  action : string
}.

Record Scheduler : Type := mkScheduler { scheduledTasks : list ScheduledTask }.

Record Automation : Type := mkAutomation { triggers : list Trigger }.

(** The object passed to [notify]: [{ action, deviceId }]. *)
Record Notification : Type := mkNotification {
  notified_action : string;
  deviceId : JsId
}.

(** [observers] is the field inherited from [Subject]. *)
Record SmartHomeSystem : Type := mkSmartHomeSystem {
  observers : list ref;
  devices : list ref;
  scheduler : Scheduler;
  automation : Automation
}.

(** What a run leaves behind besides the objects: the lines written by
    [console.log], and a mark for every call of [Subject.notify]. *)
Inductive Event : Type :=
| ConsoleLog (line : string)
| Notify (data : Notification).

Record World : Type := mkWorld {
  heap : list SmartDevice;
  home : SmartHomeSystem;
  events : list Event
}.

(** ** The monad of method bodies *)

Inductive Thrown : Type :=
| ThrownString (s : string)
| ThrownError (message : string)
| ThrownTypeError (message : string).

Inductive Completion (A : Type) : Type :=
| Normal (a : A)
| Throw (e : Thrown).
Arguments Normal {A} a.
Arguments Throw {A} e.

Definition JS (A : Type) : Type := World -> World * Completion A.

Definition ret {A} (a : A) : JS A := fun w => (w, Normal a).

Definition throw {A} (e : Thrown) : JS A := fun w => (w, Throw e).

Definition bind {A B} (m : JS A) (k : A -> JS B) : JS B :=
  fun w =>
    match m w with
    | (w', Normal a) => k a w'
    | (w', Throw e) => (w', Throw e)
    end.

Notation "x <- m ;; k" := (bind m (fun x => k))
  (at level 100, m at next level, right associativity).
Notation "m ;; k" := (bind m (fun _ => k))
  (at level 100, right associativity).

Definition gets {A} (f : World -> A) : JS A := fun w => (w, Normal (f w)).

Definition modify (f : World -> World) : JS unit := fun w => (f w, Normal tt).

(** [a.forEach(f)]: the callbacks of this file never touch the array they
    iterate over. *)
Fixpoint forEach {A} (f : A -> JS unit) (a : list A) : JS unit :=
  match a with
  | [] => ret tt
  | x :: a' => f x ;; forEach f a'
  end.

(** World updates, one per mutated field. *)
Definition with_heap (f : list SmartDevice -> list SmartDevice) (w : World) : World :=
  {| heap := f (heap w); home := home w; events := events w |}.

Definition with_home (f : SmartHomeSystem -> SmartHomeSystem) (w : World) : World :=
  {| heap := heap w; home := f (home w); events := events w |}.

Definition with_events (f : list Event -> list Event) (w : World) : World :=
  {| heap := heap w; home := home w; events := f (events w) |}.

Definition console_log (line : string) : JS unit :=
  modify (with_events (fun es => es ++ [ConsoleLog line])).

Definition with_observers (f : list ref -> list ref) (h : SmartHomeSystem) : SmartHomeSystem :=
  {| observers := f (observers h); devices := devices h;
     scheduler := scheduler h; automation := automation h |}.

Definition with_devices (f : list ref -> list ref) (h : SmartHomeSystem) : SmartHomeSystem :=
  {| observers := observers h; devices := f (devices h);
     scheduler := scheduler h; automation := automation h |}.

Definition with_scheduledTasks (f : list ScheduledTask -> list ScheduledTask)
    (h : SmartHomeSystem) : SmartHomeSystem :=
  {| observers := observers h; devices := devices h;
     scheduler := {| scheduledTasks := f (scheduledTasks (scheduler h)) |};
     automation := automation h |}.

Definition with_triggers (f : list Trigger -> list Trigger)
    (h : SmartHomeSystem) : SmartHomeSystem :=
  {| observers := observers h; devices := devices h;
     scheduler := scheduler h;
     automation := {| triggers := f (triggers (automation h)) |} |}.

(** Reading a field of the object behind a reference.  A reference held by
    the program always points into the heap; the [TypeError] branch is what
    a property read on [undefined] would do. *)
Definition deref (r : ref) : JS SmartDevice :=
  fun w =>
    match heap w !! r with
    | Some d => (w, Normal d)
    | None => (w, Throw (ThrownTypeError "Cannot read properties of undefined"))
    end.

(** [new C(...)]: the constructed object gets a fresh reference. *)
Definition new (d : SmartDevice) : JS ref :=
  fun w => (with_heap (fun h => h ++ [d]) w, Normal (length (heap w))).

(** ** class Observer *)

Module Observer.

Definition update (this : ref) (data : Notification) : JS unit :=
  throw (ThrownString "Observer update method should be implemented").

End Observer.

(** [observer.update(data)] on a device: [SmartDevice], [Light], [Thermostat]
    and [DoorLock] define no [update], so the call resolves along the
    prototype chain to [Observer.update] whatever the class. *)
Definition update (observer : ref) (data : Notification) : JS unit :=
  Observer.update observer data.

(** ** class Subject *)

Module Subject.

Definition constructor : list ref := [].

Definition addObserver (observer : ref) : JS unit :=
  modify (with_home (with_observers (fun obs => obs ++ [observer]))).

Definition removeObserver (observer : ref) : JS unit :=
  modify (with_home (with_observers
    (List.filter (fun obs => negb (Nat.eqb obs observer))))).

Definition notify (data : Notification) : JS unit :=
  modify (with_events (fun es => es ++ [Notify data])) ;;
  obs <- gets (fun w => observers (home w)) ;;
  forEach (fun observer => update observer data) obs.

End Subject.

(** ** class SmartDevice and its subclasses *)

Module SmartDevice.

Definition constructor (c : DeviceClass) (id : JsId) (type : string) : SmartDevice :=
  {| class := c; id := id; type := type; status := "off"; temperature := None |}.

Definition turnOn (this : ref) : JS unit :=
  modify (with_heap (alter (set_status "on") this)).

Definition turnOff (this : ref) : JS unit :=
  modify (with_heap (alter (set_status "off") this)).

Definition getStatus (this : ref) : JS string :=
  d <- deref this ;;
  ret (template [type d; " "; id_to_string (id d); " is "; status d]).

End SmartDevice.

Module Light.

Definition constructor (id : JsId) : SmartDevice :=
  SmartDevice.constructor Light id "Light".

End Light.

Module Thermostat.

Definition constructor (id : JsId) (temperature : Z) : SmartDevice :=
  set_temperature temperature (SmartDevice.constructor Thermostat id "Thermostat").

(** The default value of the constructor's second parameter. *)
Definition default_temperature : Z := 70.

Definition setTemperature (this : ref) (temp : Z) : JS unit :=
  modify (with_heap (alter (set_temperature temp) this)) ;;
  d <- deref this ;;
  console_log (template ["Thermostat "; id_to_string (id d); " set to ";
                         number_to_string temp; " degrees."]).

Definition getStatus (this : ref) : JS string :=
  d <- deref this ;;
  ret (template ["Thermostat "; id_to_string (id d); " is set to ";
                 string_or_undefined (option_map number_to_string (temperature d));
                 " degrees."]).

End Thermostat.

Module DoorLock.

Definition constructor (id : JsId) : SmartDevice :=
  set_status "locked" (SmartDevice.constructor DoorLock id "Door").

Definition lock (this : ref) : JS unit :=
  modify (with_heap (alter (set_status "locked") this)).

Definition unlock (this : ref) : JS unit :=
  modify (with_heap (alter (set_status "unlocked") this)).

Definition getStatus (this : ref) : JS string :=
  d <- deref this ;;
  ret (template ["Door "; id_to_string (id d); " is "; status d]).

End DoorLock.

(** Method calls on a device reference, resolved by the object's class. *)
Definition turnOn (this : ref) : JS unit :=
  _ <- deref this ;; SmartDevice.turnOn this.

Definition turnOff (this : ref) : JS unit :=
  _ <- deref this ;; SmartDevice.turnOff this.

Definition getStatus (this : ref) : JS string :=
  d <- deref this ;;
  match class d with
  | Light => SmartDevice.getStatus this
  | Thermostat => Thermostat.getStatus this
  | DoorLock => DoorLock.getStatus this
  end.

Definition not_a_function {A} (method : string) : JS A :=
  throw (ThrownTypeError (template [method; " is not a function"])).

Definition setTemperature (this : ref) (temp : Z) : JS unit :=
  d <- deref this ;;
  match class d with
  | Thermostat => Thermostat.setTemperature this temp
  | _ => not_a_function "setTemperature"
  end.

Definition lock (this : ref) : JS unit :=
  d <- deref this ;;
  match class d with
  | DoorLock => DoorLock.lock this
  | _ => not_a_function "lock"
  end.

Definition unlock (this : ref) : JS unit :=
  d <- deref this ;;
  match class d with
  | DoorLock => DoorLock.unlock this
  | _ => not_a_function "unlock"
  end.

(** ** class SmartDeviceFactory *)

Module SmartDeviceFactory.

Definition createDevice (type : string) (id : JsId) : JS ref :=
  if String.eqb type "light" then new (Light.constructor id)
  else if String.eqb type "thermostat" then
    new (Thermostat.constructor id Thermostat.default_temperature)
  else if String.eqb type "door" then new (DoorLock.constructor id)
  else throw (ThrownError "Unknown device type").

End SmartDeviceFactory.

(** ** class DeviceProxy *)

Module DeviceProxy.

Definition access_line (d : SmartDevice) : string :=
  template ["Accessing device "; id_to_string (id d); " via proxy..."].

Definition turnOn (proxied : ref) : JS unit :=
  d <- deref proxied ;;
  console_log (access_line d) ;;
  turnOn proxied.

Definition turnOff (proxied : ref) : JS unit :=
  d <- deref proxied ;;
  console_log (access_line d) ;;
  turnOff proxied.

Definition getStatus (proxied : ref) : JS string := getStatus proxied.

End DeviceProxy.

(** ** class Scheduler *)

Module Scheduler.

Definition constructor : Scheduler := {| scheduledTasks := [] |}.

Definition setSchedule (device : ref) (time command : string) : JS unit :=
  modify (with_home (with_scheduledTasks
    (fun ts => ts ++ [{| device := device; time := time; command := command |}]))) ;;
  d <- deref device ;;
  console_log (template ["Scheduled "; command; " for device ";
                         id_to_string (id d); " at "; time]).

Definition getSchedule : JS (list ScheduledTask) :=
  gets (fun w => scheduledTasks (scheduler (home w))).

End Scheduler.

(** ** class Automation *)

Module Automation.

Definition constructor : Automation := {| triggers := [] |}.

Definition addTrigger (condition action : string) : JS unit :=
  modify (with_home (with_triggers
    (fun ts => ts ++ [{| condition := condition; action := action |}]))) ;;
  console_log (template ["Added trigger: "; condition; " -> "; action]).

Definition getTriggers : JS (list Trigger) :=
  gets (fun w => triggers (automation (home w))).

(** The test of the [if] in [checkTriggers]: the condition is split on
    single spaces, the first three pieces are bound (a missing one is
    [undefined]) and any further piece is dropped by the destructuring. *)
Definition trigger_met (thermostat : SmartDevice) (trigger : Trigger) : bool :=
  let pieces := str_split " " (condition trigger) in
  let property := pieces !! 0 in
  let operator := pieces !! 1 in
  let value := pieces !! 2 in
  token_is property "temperature"
  && token_is operator ">"
  && js_gt (temperature thermostat) (parseInt (string_or_undefined value)).

Definition trigger_line (trigger : Trigger) : string :=
  template ["Trigger met: "; condition trigger; ". Executing: "; action trigger].

Definition checkTriggers (thermostat : ref) : JS unit :=
  ts <- gets (fun w => triggers (automation (home w))) ;;
  forEach (fun trigger =>
             d <- deref thermostat ;;
             if trigger_met d trigger then console_log (trigger_line trigger)
             else ret tt) ts.

End Automation.

(** ** class SmartHomeSystem *)

(** [this.devices.find(d => p(d))]: the first registered reference whose
    object satisfies [p], or [undefined]. *)
Definition find_device (p : SmartDevice -> bool) : JS (option ref) :=
  gets (fun w =>
          List.find (fun r => match heap w !! r with
                              | Some d => p d
                              | None => false
                              end) (devices (home w))).

Module SmartHomeSystem.

Definition constructor : SmartHomeSystem :=
  {| observers := Subject.constructor; devices := [];
     scheduler := Scheduler.constructor;
     automation := Automation.constructor |}.

Definition addDevice (type : string) (id : JsId) : JS unit :=
  device <- SmartDeviceFactory.createDevice type id ;;
  modify (with_home (with_devices (fun ds => ds ++ [device]))) ;;
  Subject.addObserver device.

Definition turnOn (deviceId : JsId) : JS unit :=
  device <- find_device (fun d => strict_eq (id d) deviceId) ;;
  match device with
  | Some device =>
      turnOn device ;;
      Subject.notify {| notified_action := "turnOn"; deviceId := deviceId |}
  | None => ret tt
  end.

Definition turnOff (deviceId : JsId) : JS unit :=
  device <- find_device (fun d => strict_eq (id d) deviceId) ;;
  match device with
  | Some device =>
      turnOff device ;;
      Subject.notify {| notified_action := "turnOff"; deviceId := deviceId |}
  | None => ret tt
  end.

Definition setSchedule (deviceId : JsId) (time command : string) : JS unit :=
  device <- find_device (fun d => strict_eq (id d) deviceId) ;;
  match device with
  | Some device => Scheduler.setSchedule device time command
  | None => ret tt
  end.

Definition addTrigger (condition action : string) : JS unit :=
  Automation.addTrigger condition action.

Definition checkTriggers : JS unit :=
  thermostat <- find_device (fun d => String.eqb (type d) "Thermostat") ;;
  match thermostat with
  | Some thermostat => Automation.checkTriggers thermostat
  | None => ret tt
  end.

(** [this.devices.map(device => device.getStatus())], before the join. *)
Fixpoint status_lines (ds : list ref) : JS (list string) :=
  match ds with
  | [] => ret []
  | device :: ds' =>
      line <- getStatus device ;;
      lines <- status_lines ds' ;;
      ret (line :: lines)
  end.

Definition getStatusReport : JS string :=
  ds <- gets (fun w => devices (home w)) ;;
  lines <- status_lines ds ;;
  ret (join (String "010"%char "") lines).

End SmartHomeSystem.

(** The world in which [new SmartHomeSystem()] has just run. *)
Definition fresh : World :=
  {| heap := []; home := SmartHomeSystem.constructor; events := [] |}.

(** ** Callers *)

(** The calls of the hub's control surface. *)
Inductive HubCall : Type :=
| CallAddDevice (type : string) (id : JsId)
| CallTurnOn (deviceId : JsId)
| CallTurnOff (deviceId : JsId)
| CallSetSchedule (deviceId : JsId) (time command : string)
| CallAddTrigger (condition action : string)
| CallCheckTriggers
| CallGetStatusReport.

(** The calls a holder of a device reference can make on it, directly or
    through a [DeviceProxy] wrapped around it. *)
Inductive DeviceCall : Type :=
| CallDeviceTurnOn
| CallDeviceTurnOff
| CallDeviceGetStatus
| CallSetTemperature (temp : Z)
| CallLock
| CallUnlock
| CallProxyTurnOn
| CallProxyTurnOff
| CallProxyGetStatus.

Inductive Call : Type :=
| OnHub (c : HubCall)
| OnDevice (this : ref) (c : DeviceCall).

(** What a call evaluates to. *)
Inductive Value : Type :=
| Undefined
| StringValue (s : string).

Definition returning_undefined (m : JS unit) : JS Value := m ;; ret Undefined.

Definition returning_string (m : JS string) : JS Value :=
  s <- m ;; ret (StringValue s).

Definition hub_call (c : HubCall) : JS Value :=
  match c with
  | CallAddDevice type id => returning_undefined (SmartHomeSystem.addDevice type id)
  | CallTurnOn deviceId => returning_undefined (SmartHomeSystem.turnOn deviceId)
  | CallTurnOff deviceId => returning_undefined (SmartHomeSystem.turnOff deviceId)
  | CallSetSchedule deviceId time command =>
      returning_undefined (SmartHomeSystem.setSchedule deviceId time command)
  | CallAddTrigger condition action =>
      returning_undefined (SmartHomeSystem.addTrigger condition action)
  | CallCheckTriggers => returning_undefined SmartHomeSystem.checkTriggers
  | CallGetStatusReport => returning_string SmartHomeSystem.getStatusReport
  end.

Definition device_call (this : ref) (c : DeviceCall) : JS Value :=
  match c with
  | CallDeviceTurnOn => returning_undefined (turnOn this)
  | CallDeviceTurnOff => returning_undefined (turnOff this)
  | CallDeviceGetStatus => returning_string (getStatus this)
  | CallSetTemperature temp => returning_undefined (setTemperature this temp)
  | CallLock => returning_undefined (lock this)
  | CallUnlock => returning_undefined (unlock this)
  | CallProxyTurnOn => returning_undefined (DeviceProxy.turnOn this)
  | CallProxyTurnOff => returning_undefined (DeviceProxy.turnOff this)
  | CallProxyGetStatus => returning_string (DeviceProxy.getStatus this)
  end.

Definition call (c : Call) : JS Value :=
  match c with
  | OnHub c => hub_call c
  | OnDevice this c => device_call this c
  end.

(** A script: the calls one after the other, as statements of one program.
    An uncaught exception ends it. *)
Fixpoint script (cs : list Call) : JS unit :=
  match cs with
  | [] => ret tt
  | c :: cs' => call c ;; script cs'
  end.

(** A caller that wraps every call in [try]/[catch] and carries on: the
    world after each call, whatever its completion. *)
Fixpoint guarded (cs : list Call) (w : World) : World :=
  match cs with
  | [] => w
  | c :: cs' => guarded cs' (fst (call c w))
  end.

(** Worlds a program can reach from a new hub. *)
Definition reachable (w : World) : Prop :=
  exists cs, w = guarded cs fresh.

(** The same through the hub's control surface alone. *)
Definition hub_reachable (w : World) : Prop :=
  exists cs, w = guarded (map OnHub cs) fresh.

(** The calls of the example at the end of the source file. *)
Definition example_usage : list Call :=
  [ OnHub (CallAddDevice "light" (IdNum 1));
    OnHub (CallAddDevice "thermostat" (IdNum 2));
    OnHub (CallAddDevice "door" (IdNum 3));
    OnHub (CallTurnOn (IdNum 1));
    OnHub (CallSetSchedule (IdNum 2) "06:00" "Turn On");
    OnHub (CallAddTrigger "temperature > 75" "turnOff(1)");
    OnHub CallCheckTriggers ].

(** ** Notions used in the statements *)

(** What a world keeps when only the console and the call marks move. *)
Definition same_objects (w w' : World) : Prop :=
  heap w' = heap w /\ home w' = home w.

(** The value thrown by [Observer.update]. *)
Definition unimplemented : Thrown :=
  ThrownString "Observer update method should be implemented".

(** The lines [checkTriggers] writes for the triggers [ts] against the
    object [d]. *)
Definition fired_lines (d : SmartDevice) (ts : list Trigger) : list Event :=
  map (fun t => ConsoleLog (Automation.trigger_line t))
      (List.filter (Automation.trigger_met d) ts).

(** The status a call assigns to the device it reaches, when it assigns
    one: the string literal in the body of the method it ends up in. *)
Definition written_status (c : Call) : option string :=
  match c with
  | OnHub (CallTurnOn _) => Some "on"
  | OnHub (CallTurnOff _) => Some "off"
  | OnDevice _ CallDeviceTurnOn => Some "on"
  | OnDevice _ CallDeviceTurnOff => Some "off"
  | OnDevice _ CallProxyTurnOn => Some "on"
  | OnDevice _ CallProxyTurnOff => Some "off"
  | OnDevice _ CallLock => Some "locked"
  | OnDevice _ CallUnlock => Some "unlocked"
  | _ => None
  end.

(** Calls that end in [SmartDevice.turnOn] or [SmartDevice.turnOff]. *)
Definition switches (c : Call) : bool :=
  match written_status c with
  | Some s => String.eqb s "on" || String.eqb s "off"
  | None => false
  end.

(** The objects the factory builds. *)
Inductive constructed : SmartDevice -> Prop :=
| constructed_light id : constructed (Light.constructor id)
| constructed_thermostat id :
    constructed (Thermostat.constructor id Thermostat.default_temperature)
| constructed_door id : constructed (DoorLock.constructor id).

(** The four ways a call changes the objects: it leaves devices and both
    reference arrays alone, it registers a new device, it assigns a status,
    or it assigns a temperature. *)
Inductive call_effect (c : Call) (w w' : World) : Prop :=
| effect_records :
    heap w' = heap w ->
    observers (home w') = observers (home w) ->
    devices (home w') = devices (home w) ->
    call_effect c w w'
| effect_register d :
    constructed d ->
    heap w' = heap w ++ [d] ->
    observers (home w') = observers (home w) ++ [length (heap w)] ->
    devices (home w') = devices (home w) ++ [length (heap w)] ->
    call_effect c w w'
| effect_status r s :
    written_status c = Some s ->
    heap w' = alter (set_status s) r (heap w) ->
    home w' = home w ->
    call_effect c w w'
| effect_temperature r t :
    heap w' = alter (set_temperature t) r (heap w) ->
    home w' = home w ->
    call_effect c w w'.

(** Door locks only: the status is one of [allowed]. *)
Definition door_status_in (allowed : list string) (d : SmartDevice) : Prop :=
  class d = DoorLock -> In (status d) allowed.

(** Whether the character [c] occurs in [s]. *)
Fixpoint has_char (c : ascii) (s : string) : bool :=
  match s with
  | EmptyString => false
  | String c' s' => Ascii.eqb c c' || has_char c s'
  end.

(** A world with one thermostat at the given temperature and the given
    rules, as [addDevice], [setTemperature] and [addTrigger] build it. *)
Definition thermostat_world (temp : Z) (rules : list (string * string)) : World :=
  guarded (OnHub (CallAddDevice "thermostat" (IdNum 2))
           :: OnDevice 0 (CallSetTemperature temp)
           :: map (fun r => OnHub (CallAddTrigger (fst r) (snd r))) rules)
          fresh.

(** Unfolding of the method bodies that hold no loop. *)
Ltac unfold_methods :=
  unfold returning_undefined, returning_string,
    SmartHomeSystem.addDevice, SmartHomeSystem.turnOn, SmartHomeSystem.turnOff, SmartHomeSystem.setSchedule, SmartHomeSystem.addTrigger,
    SmartDeviceFactory.createDevice, Subject.addObserver,
    Scheduler.setSchedule, Automation.addTrigger,
    DeviceProxy.turnOn, DeviceProxy.turnOff, DeviceProxy.getStatus,
    turnOn, turnOff, setTemperature, lock, unlock, not_a_function,
    SmartDevice.turnOn, SmartDevice.turnOff,
    Thermostat.setTemperature, DoorLock.lock, DoorLock.unlock,
    find_device, console_log, new, deref, bind, modify, gets, ret, throw in *.

(** What one call does to the world, field by field.  [es] are the events
    the call appends (console lines, [notify] marks). *)
Inductive outcome (c : Call) (w w' : World) : Prop :=
| out_quiet es :
    heap w' = heap w ->
    home w' = home w ->
    events w' = events w ++ es ->
    outcome c w w'
| out_register d :
    constructed d ->
    heap w' = heap w ++ [d] ->
    home w' = with_observers (fun obs => obs ++ [length (heap w)])
                (with_devices (fun ds => ds ++ [length (heap w)]) (home w)) ->
    events w' = events w ->
    outcome c w w'
| out_status r d s es :
    heap w !! r = Some d ->
    written_status c = Some s ->
    class d = DoorLock \/ s = "on" \/ s = "off" ->
    heap w' = alter (set_status s) r (heap w) ->
    home w' = home w ->
    events w' = events w ++ es ->
    outcome c w w'
| out_temperature r d t es :
    heap w !! r = Some d ->
    class d = Thermostat ->
    c = OnDevice r (CallSetTemperature t) ->
    heap w' = alter (set_temperature t) r (heap w) ->
    home w' = home w ->
    events w' = events w ++ es ->
    outcome c w w'
| out_task r d tm cmd es :
    In r (devices (home w)) ->
    heap w !! r = Some d ->
    heap w' = heap w ->
    home w' = with_scheduledTasks
                (fun ts => ts ++ [{| device := r; time := tm; command := cmd |}])
                (home w) ->
    events w' = events w ++ es ->
    outcome c w w'
| out_trigger cnd act es :
    heap w' = heap w ->
    home w' = with_triggers
                (fun ts => ts ++ [{| condition := cnd; action := act |}])
                (home w) ->
    events w' = events w ++ es ->
    outcome c w w'.

(** [w'] holds everything [w] holds, in the same order, and possibly more
    behind it. *)
Definition grows (w w' : World) : Prop :=
  devices (home w) `prefix_of` devices (home w')
  /\ observers (home w) `prefix_of` observers (home w')
  /\ scheduledTasks (scheduler (home w)) `prefix_of` scheduledTasks (scheduler (home w'))
  /\ triggers (automation (home w)) `prefix_of` triggers (automation (home w'))
  /\ events w `prefix_of` events w'
  /\ length (heap w) <= length (heap w').

(** The references of a world are in order: the registered devices are the
    objects of the heap, observers and devices are the same array, and every
    task points at a registered device. *)
Definition references_in_order (w : World) : Prop :=
  devices (home w) = seq 0 (length (heap w))
  /\ observers (home w) = devices (home w)
  /\ Forall (fun t => In (device t) (devices (home w))
                      /\ is_Some (heap w !! device t))
            (scheduledTasks (scheduler (home w))).

(** What the fields of an object of each class look like. *)
Definition well_formed_device (d : SmartDevice) : Prop :=
  match class d with
  | Light =>
      type d = "Light" /\ temperature d = None
      /\ (status d = "on" \/ status d = "off")
  | Thermostat =>
      type d = "Thermostat" /\ is_Some (temperature d)
      /\ (status d = "on" \/ status d = "off")
  | DoorLock =>
      type d = "Door" /\ temperature d = None
  end.

(** The string [getStatus] builds from the fields of an object, by class. *)
Definition status_line (d : SmartDevice) : string :=
  match class d with
  | Light => template [type d; " "; id_to_string (id d); " is "; status d]
  | Thermostat =>
      template ["Thermostat "; id_to_string (id d); " is set to ";
                string_or_undefined (option_map number_to_string (temperature d));
                " degrees."]
  | DoorLock => template ["Door "; id_to_string (id d); " is "; status d]
  end.

(** Whether every character of [s] is one of "0" to "9". *)
Fixpoint all_digits (s : string) : bool :=
  match s with
  | EmptyString => true
  | String c s' =>
      let n := nat_of_ascii c in
      Nat.leb 48 n && Nat.leb n 57 && all_digits s'
  end.

(** Whether some registered device has the id [x]: the test of
    [this.devices.find(d => d.id === x)] succeeding. *)
Definition is_registered (x : JsId) (w : World) : bool :=
  existsb (fun r => match heap w !! r with
                    | Some d => strict_eq (id d) x
                    | None => false
                    end) (devices (home w)).

(** A [setSchedule] request: the id, the time and the command. *)
Definition schedule_request : Type := JsId * string * string.

Definition request_call (q : schedule_request) : Call :=
  OnHub (CallSetSchedule (fst (fst q)) (snd (fst q)) (snd q)).

(** [Number.isSafeInteger]: the integers a JavaScript number holds exactly,
    and on which [parseInt] and number printing are the exact functions
    above. *)
Definition safe_integer (n : Z) : Prop := (Z.abs n < 9007199254740992)%Z.

(** An id whose printed form is the one [id_to_string] gives. *)
Definition printable_id (x : JsId) : Prop :=
  match x with
  | IdNum n => safe_integer n
  | IdStr _ => True
  end.

(** The object a call assigns a status to, with the status it assigns:
    the first registered device with the id for the hub's [turnOn] and
    [turnOff], the receiver for the device's and the proxy's, the receiver
    when it is a door lock for [lock] and [unlock]; nothing when the lookup
    misses or the call is another one. *)
Definition assignment (c : Call) (w : World) : option (ref * string) :=
  let found (x : JsId) :=
    List.find (fun r => match heap w !! r with
                        | Some d => strict_eq (id d) x
                        | None => false
                        end) (devices (home w)) in
  let live (r : ref) :=
    match heap w !! r with Some _ => Some r | None => None end in
  let door (r : ref) :=
    match heap w !! r with
    | Some d => match class d with DoorLock => Some r | _ => None end
    | None => None
    end in
  match c with
  | OnHub (CallTurnOn x) => option_map (fun r => (r, "on")) (found x)
  | OnHub (CallTurnOff x) => option_map (fun r => (r, "off")) (found x)
  | OnDevice r CallDeviceTurnOn => option_map (fun r => (r, "on")) (live r)
  | OnDevice r CallDeviceTurnOff => option_map (fun r => (r, "off")) (live r)
  | OnDevice r CallProxyTurnOn => option_map (fun r => (r, "on")) (live r)
  | OnDevice r CallProxyTurnOff => option_map (fun r => (r, "off")) (live r)
  | OnDevice r CallLock => option_map (fun r => (r, "locked")) (door r)
  | OnDevice r CallUnlock => option_map (fun r => (r, "unlocked")) (door r)
  | _ => None
  end.

(** The status a call leaves on the object [r], given the one it had. *)
Definition status_after (c : Call) (w : World) (r : ref) (before : string) : string :=
  match assignment c w with
  | Some (r', s) => if Nat.eqb r' r then s else before
  | None => before
  end.

(** The status last assigned to [r] along a run of guarded calls, [last]
    if none of them reaches [r]. *)
Fixpoint last_assigned (r : ref) (cs : list Call) (w : World)
    (last : option string) : option string :=
  match cs with
  | [] => last
  | c :: cs' =>
      last_assigned r cs' (fst (call c w))
        (match assignment c w with
         | Some (r', s) => if Nat.eqb r' r then Some s else last
         | None => last
         end)
  end.

(** Whether a turnOn or a turnOff reaches the object [r]. *)
Definition switch_lands_on (r : ref) (c : Call) (w : World) : bool :=
  match assignment c w with
  | Some (r', s) => Nat.eqb r' r && (String.eqb s "on" || String.eqb s "off")
  | None => false
  end.

(** No turnOn and no turnOff of the run reaches the object [r]. *)
Fixpoint spared (r : ref) (cs : list Call) (w : World) : bool :=
  match cs with
  | [] => true
  | c :: cs' => negb (switch_lands_on r c w) && spared r cs' (fst (call c w))
  end.

(** The tokens of [s] delimited by the characters that satisfy [sep]: the
    maximal runs of other characters, in order. *)
Fixpoint tokens_by (sep : ascii -> bool) (s : string) : list string :=
  match s with
  | EmptyString => []
  | String c s' =>
      if sep c then tokens_by sep s'
      else match s' with
           | EmptyString => [String c EmptyString]
           | String c' _ =>
               if sep c' then String c EmptyString :: tokens_by sep s'
               else match tokens_by sep s' with
                    | token :: tokens => String c token :: tokens
                    | [] => [String c EmptyString]
                    end
           end
  end.

(** Follows the claim's words ("splits on whitespace into tokens"): the
    tokens delimited by white space, any run of it counting once. *)
Definition whitespace_tokens (s : string) : list string :=
  tokens_by is_white_space s.

(** The same with the space as the only delimiter: the pieces of
    [s.split(' ')] that are not empty. *)
Definition space_tokens (s : string) : list string :=
  tokens_by (Ascii.eqb " ") s.

(** Whether [s] holds no white space. *)
Fixpoint all_white_space_free (s : string) : bool :=
  match s with
  | EmptyString => true
  | String c s' => negb (is_white_space c) && all_white_space_free s'
  end.

(** Whether [s] holds white space only. *)
Fixpoint all_white_space (s : string) : bool :=
  match s with
  | EmptyString => true
  | String c s' => is_white_space c && all_white_space s'
  end.

(** Follows the claim's words ("parseable as an integer"): an optional
    sign, then decimal digits, at least one, and nothing else. *)
Definition integer_literal (s : string) : bool :=
  let digits (r : string) :=
    match r with
    | EmptyString => false
    | String _ _ => all_digits r
    end in
  match s with
  | String "-" r => digits r
  | String "+" r => digits r
  | _ => digits s
  end.

(** Closes a case in which the object is found as it was. *)
Ltac same_status Hd := eexists; split; [exact Hd | split; reflexivity].

(** Case analysis on one character, closing the cases that compute. *)
Ltac by_first_character c :=
  destruct c as [[] [] [] [] [] [] [] []]; try discriminate;
  try (split; reflexivity).

Create HintDb hub.

(** * Properties *)

(** ** The built-ins on small inputs *)

Example str_split_condition :
  str_split " " "temperature > 75" = ["temperature"; ">"; "75"].
Proof. reflexivity. Qed.

Example str_split_keeps_empty_pieces :
  str_split " " " a  b " = [""; "a"; ""; "b"; ""] /\ str_split " " "" = [""].
Proof. split; reflexivity. Qed.

Example parseInt_numbers :
  parseInt "75" = Some 75%Z /\ parseInt " -0x1F" = Some (-31)%Z
  /\ parseInt "abc" = None /\ parseInt "" = None /\ parseInt "undefined" = None.
Proof. repeat split. Qed.

(** [parseInt] stops at the first character that is not a digit and keeps
    what it has read. *)
Example parseInt_reads_a_prefix :
  parseInt "75abc" = Some 75%Z /\ parseInt "75.9" = Some 75%Z.
Proof. split; reflexivity. Qed.

(** ** The monad and the array helpers *)

Lemma world_eta (w : World) :
  {| heap := heap w; home := home w; events := events w |} = w.
Proof. destruct w; reflexivity. Qed.

Lemma with_events_nil (w : World) : with_events (fun es => es ++ []) w = w.
Proof. unfold with_events. rewrite app_nil_r. apply world_eta. Qed.

Lemma with_events_app (l1 l2 : list Event) (w : World) :
  with_events (fun es => es ++ l2) (with_events (fun es => es ++ l1) w)
  = with_events (fun es => es ++ l1 ++ l2) w.
Proof. unfold with_events; simpl. now rewrite app_assoc. Qed.

Lemma same_objects_refl (w : World) : same_objects w w.
Proof. split; reflexivity. Qed.

Lemma same_objects_trans (w1 w2 w3 : World) :
  same_objects w1 w2 -> same_objects w2 w3 -> same_objects w1 w3.
Proof. intros [H1 H2] [H3 H4]; split; congruence. Qed.

Lemma same_objects_events (f : list Event -> list Event) (w : World) :
  same_objects w (with_events f w).
Proof. split; reflexivity. Qed.

#[local] Hint Resolve same_objects_refl same_objects_events : hub.

Lemma forEach_same_objects {A} (f : A -> JS unit) (a : list A) :
  (forall x w, same_objects w (fst (f x w))) ->
  forall w, same_objects w (fst (forEach f a w)).
Proof.
  intros Hf. induction a as [|x a IH]; intros w; simpl.
  - apply same_objects_refl.
  - unfold bind. specialize (Hf x w).
    destruct (f x w) as [w1 [[]|e]]; simpl in *.
    + eapply same_objects_trans; [exact Hf | apply IH].
    + exact Hf.
Qed.

Lemma deref_Some (r : ref) (d : SmartDevice) (w : World) :
  heap w !! r = Some d -> deref r w = (w, Normal d).
Proof. intros H. unfold deref. now rewrite H. Qed.

Lemma deref_fst (r : ref) (w : World) : fst (deref r w) = w.
Proof. unfold deref. destruct (heap w !! r); reflexivity. Qed.

(** ** Subject.notify *)

(** The fan-out stops in the first observer: [update] throws there. *)
Lemma forEach_update (data : Notification) (obs : list ref) (w : World) :
  forEach (fun observer => update observer data) obs w
  = (w, match obs with [] => Normal tt | _ :: _ => Throw unimplemented end).
Proof. destruct obs; reflexivity. Qed.

Lemma notify_eq (data : Notification) (w : World) :
  Subject.notify data w
  = (with_events (fun es => es ++ [Notify data]) w,
     match observers (home w) with
     | [] => Normal tt
     | _ :: _ => Throw unimplemented
     end).
Proof.
  unfold Subject.notify, bind, modify, gets. simpl.
  now rewrite forEach_update.
Qed.

(** ** Automation.checkTriggers *)

Lemma forEach_trigger (thermostat : ref) (d : SmartDevice) (ts : list Trigger) :
  forall w, heap w !! thermostat = Some d ->
  forEach (fun trigger =>
             d <- deref thermostat ;;
             if Automation.trigger_met d trigger
             then console_log (Automation.trigger_line trigger)
             else ret tt) ts w
  = (with_events (fun es => es ++ fired_lines d ts) w, Normal tt).
Proof.
  induction ts as [|t ts IH]; intros w Hd; simpl.
  - unfold ret, fired_lines; simpl. now rewrite with_events_nil.
  - unfold bind at 1. unfold bind at 1. rewrite (deref_Some _ _ _ Hd).
    unfold fired_lines; simpl.
    destruct (Automation.trigger_met d t); simpl.
    + rewrite IH by exact Hd. now rewrite with_events_app.
    + now rewrite IH by exact Hd.
Qed.

(** The whole of [checkTriggers] on a live thermostat object: one line per
    trigger whose test holds, in the order of the triggers, and nothing
    else. *)
Lemma checkTriggers_eq (thermostat : ref) (d : SmartDevice) (w : World) :
  heap w !! thermostat = Some d ->
  Automation.checkTriggers thermostat w
  = (with_events (fun es => es ++ fired_lines d (triggers (automation (home w)))) w,
     Normal tt).
Proof.
  intros Hd. unfold Automation.checkTriggers, bind, gets.
  now apply forEach_trigger.
Qed.

Lemma checkTriggers_same_objects (thermostat : ref) (w : World) :
  same_objects w (fst (Automation.checkTriggers thermostat w)).
Proof.
  unfold Automation.checkTriggers, bind, gets.
  apply forEach_same_objects. clear. intros t w.
  unfold bind, deref. destruct (heap w !! thermostat); simpl; auto with hub.
  destruct (Automation.trigger_met s t); simpl; auto with hub.
Qed.

(** ** Reading the devices *)

Lemma getStatus_fst (this : ref) (w : World) : fst (getStatus this w) = w.
Proof.
  unfold getStatus, bind, deref.
  destruct (heap w !! this) as [d|] eqn:E; [|reflexivity].
  destruct (class d);
    unfold SmartDevice.getStatus, Thermostat.getStatus,
      DoorLock.getStatus, bind, deref; rewrite E; reflexivity.
Qed.

Lemma status_lines_fst (ds : list ref) (w : World) :
  fst (SmartHomeSystem.status_lines ds w) = w.
Proof.
  induction ds as [|r ds IH]; simpl; [reflexivity|].
  unfold bind. pose proof (getStatus_fst r w) as Hr.
  destruct (getStatus r w) as [w1 [line|e]]; simpl in Hr; subst w1; [|reflexivity].
  destruct (SmartHomeSystem.status_lines ds w) as [w2 [lines|e]]; simpl in IH; subst w2;
    reflexivity.
Qed.

Lemma getStatusReport_fst (w : World) : fst (SmartHomeSystem.getStatusReport w) = w.
Proof.
  unfold SmartHomeSystem.getStatusReport, bind, gets.
  pose proof (status_lines_fst (devices (home w)) w) as H.
  destruct (SmartHomeSystem.status_lines (devices (home w)) w) as [w1 [lines|e]];
    simpl in H; subst w1; reflexivity.
Qed.

(** ** One call at a time *)

Lemma hub_call_effect (c : HubCall) (w : World) :
  call_effect (OnHub c) w (fst (hub_call c w)).
Proof.
  destruct c; simpl.
  - (* addDevice *)
    unfold_methods.
    destruct (String.eqb type0 "light"); simpl;
      [eapply effect_register; [apply constructed_light|..]; reflexivity|].
    destruct (String.eqb type0 "thermostat"); simpl;
      [eapply effect_register; [apply constructed_thermostat|..]; reflexivity|].
    destruct (String.eqb type0 "door"); simpl;
      [eapply effect_register; [apply constructed_door|..]; reflexivity|].
    now apply effect_records.
  - (* turnOn *)
    unfold_methods.
    destruct (List.find _ _) as [r|]; simpl; [|now apply effect_records].
    destruct (heap w !! r); simpl; [|now apply effect_records].
    rewrite notify_eq. simpl.
    apply (effect_status _ _ _ r "on"); [reflexivity| |];
      destruct (observers (home w)); reflexivity.
  - (* turnOff *)
    unfold_methods.
    destruct (List.find _ _) as [r|]; simpl; [|now apply effect_records].
    destruct (heap w !! r); simpl; [|now apply effect_records].
    rewrite notify_eq. simpl.
    apply (effect_status _ _ _ r "off"); [reflexivity| |];
      destruct (observers (home w)); reflexivity.
  - (* setSchedule *)
    unfold_methods.
    destruct (List.find _ _) as [r|]; simpl; [|now apply effect_records].
    destruct (heap w !! r); simpl; now apply effect_records.
  - (* addTrigger *)
    unfold_methods. now apply effect_records.
  - (* checkTriggers *)
    unfold SmartHomeSystem.checkTriggers, returning_undefined, find_device, bind, gets, ret.
    destruct (List.find _ _) as [r|]; simpl; [|now apply effect_records].
    destruct (checkTriggers_same_objects r w) as [Hh Hm].
    destruct (Automation.checkTriggers r w) as [w1 [[]|e]]; simpl in *;
      apply effect_records; congruence.
  - (* getStatusReport *)
    unfold returning_string, bind, ret.
    pose proof (getStatusReport_fst w) as H.
    destruct (SmartHomeSystem.getStatusReport w) as [w1 [s|e]]; simpl in *; subst w1;
      now apply effect_records.
Qed.

Lemma device_call_effect (this : ref) (c : DeviceCall) (w : World) :
  call_effect (OnDevice this c) w (fst (device_call this c w)).
Proof.
  destruct c; simpl.
  - (* turnOn *)
    unfold_methods. destruct (heap w !! this); simpl;
      [now apply (effect_status _ _ _ this "on") | now apply effect_records].
  - (* turnOff *)
    unfold_methods. destruct (heap w !! this); simpl;
      [now apply (effect_status _ _ _ this "off") | now apply effect_records].
  - (* getStatus *)
    unfold returning_string, bind, ret.
    pose proof (getStatus_fst this w) as H.
    destruct (getStatus this w) as [w1 [s|e]]; simpl in *; subst w1;
      now apply effect_records.
  - (* setTemperature *)
    unfold_methods. destruct (heap w !! this) as [d|] eqn:E; simpl;
      [|now apply effect_records].
    destruct (class d); simpl; try (now apply effect_records).
    destruct (alter (set_temperature temp) this (heap w) !! this); simpl;
      apply (effect_temperature _ _ _ this temp); reflexivity.
  - (* lock *)
    unfold_methods. destruct (heap w !! this) as [d|]; simpl;
      [|now apply effect_records].
    destruct (class d); simpl; try (now apply effect_records).
    now apply (effect_status _ _ _ this "locked").
  - (* unlock *)
    unfold_methods. destruct (heap w !! this) as [d|]; simpl;
      [|now apply effect_records].
    destruct (class d); simpl; try (now apply effect_records).
    now apply (effect_status _ _ _ this "unlocked").
  - (* proxy.turnOn *)
    unfold_methods. simpl. destruct (heap w !! this) eqn:E; simpl; rewrite ?E; simpl;
      [now apply (effect_status _ _ _ this "on") | now apply effect_records].
  - (* proxy.turnOff *)
    unfold_methods. simpl. destruct (heap w !! this) eqn:E; simpl; rewrite ?E; simpl;
      [now apply (effect_status _ _ _ this "off") | now apply effect_records].
  - (* proxy.getStatus *)
    unfold returning_string, DeviceProxy.getStatus, bind, ret.
    pose proof (getStatus_fst this w) as H.
    destruct (getStatus this w) as [w1 [s|e]]; simpl in *; subst w1;
      now apply effect_records.
Qed.

Lemma call_effect_holds (c : Call) (w : World) :
  call_effect c w (fst (call c w)).
Proof.
  destruct c; [apply hub_call_effect | apply device_call_effect].
Qed.

(** ** Invariants along the calls *)

Lemma guarded_app (cs1 cs2 : list Call) (w : World) :
  guarded (cs1 ++ cs2) w = guarded cs2 (guarded cs1 w).
Proof. revert w. induction cs1; intros w; simpl; auto. Qed.

(** An invariant kept by every call that satisfies [ok] holds wherever such
    calls lead. *)
Lemma guarded_invariant (I : World -> Prop) (ok : Call -> Prop) :
  (forall c w, ok c -> I w -> I (fst (call c w))) ->
  forall cs w, Forall ok cs -> I w -> I (guarded cs w).
Proof.
  intros Hstep. induction cs as [|c cs IH]; intros w Hok Hw; simpl; [exact Hw|].
  inversion Hok; subst. apply IH; [assumption|]. now apply Hstep.
Qed.

Lemma call_keeps_lists_equal (c : Call) (w : World) :
  observers (home w) = devices (home w) ->
  observers (home (fst (call c w))) = devices (home (fst (call c w))).
Proof.
  intros Heq.
  destruct (call_effect_holds c w) as [Hh Ho Hd | d Hc Hh Ho Hd | r s Hs Hh Hm | r t Hh Hm];
    congruence.
Qed.

Lemma call_keeps_door_status (allowed : list string) (c : Call) (w : World) :
  In "locked" allowed ->
  (forall s, written_status c = Some s -> In s allowed) ->
  Forall (door_status_in allowed) (heap w) ->
  Forall (door_status_in allowed) (heap (fst (call c w))).
Proof.
  intros Hlocked Hwritten Hw.
  destruct (call_effect_holds c w) as [Hh Ho Hd | d Hc Hh Ho Hd | r s Hs Hh Hm | r t Hh Hm];
    rewrite Hh.
  - exact Hw.
  - apply Forall_app; split; [exact Hw|].
    constructor; [|constructor].
    destruct Hc; intros Hclass; simpl in *; try discriminate. exact Hlocked.
  - apply Forall_alter; [exact Hw|].
    intros d _ Hd Hclass. simpl. now apply Hwritten.
  - apply Forall_alter; [exact Hw|].
    intros d _ Hd Hclass. simpl. now apply Hd.
Qed.

(** ** The factory and addDevice *)

Lemma createDevice_unknown (type : string) (id : JsId) (w : World) :
  type <> "light" -> type <> "thermostat" -> type <> "door" ->
  SmartDeviceFactory.createDevice type id w
  = (w, Throw (ThrownError "Unknown device type")).
Proof.
  intros Hl Ht Hd. unfold SmartDeviceFactory.createDevice.
  apply String.eqb_neq in Hl, Ht, Hd. now rewrite Hl, Ht, Hd.
Qed.

(** C2: for every kind token other than "light", "thermostat" and "door"
    and every id, [createDevice] throws the unknown-kind error: it allocates
    no device and returns none.  [addDevice] has no handler around the
    factory call, so the same error reaches its caller. *)
Theorem C2_unknown_kind_is_thrown (type : string) (id : JsId) (w : World) :
  type <> "light" -> type <> "thermostat" -> type <> "door" ->
  SmartDeviceFactory.createDevice type id w
  = (w, Throw (ThrownError "Unknown device type"))
  /\ snd (SmartHomeSystem.addDevice type id w) = Throw (ThrownError "Unknown device type").
Proof.
  intros Hl Ht Hd. split; [now apply createDevice_unknown|].
  unfold SmartHomeSystem.addDevice, bind. now rewrite createDevice_unknown.
Qed.

Lemma C2_unknown_kind_is_thrown_witness :
  SmartDeviceFactory.createDevice "camera" (IdNum 4) (guarded example_usage fresh)
  = (guarded example_usage fresh, Throw (ThrownError "Unknown device type"))
  /\ snd (SmartHomeSystem.addDevice "camera" (IdNum 4) (guarded example_usage fresh))
     = Throw (ThrownError "Unknown device type").
Proof.
  apply (C2_unknown_kind_is_thrown "camera" (IdNum 4) (guarded example_usage fresh));
    discriminate.
Defined.

(** C10: when [addDevice] is given an unrecognized kind, the world after the
    failed call is the world before it: the device array, the observer
    array, the scheduled tasks and the triggers are what they were, and so
    is every other part of the state. *)
Theorem C10_failed_addDevice_changes_nothing (type : string) (id : JsId) (w : World) :
  type <> "light" -> type <> "thermostat" -> type <> "door" ->
  let w' := fst (SmartHomeSystem.addDevice type id w) in
  devices (home w') = devices (home w)
  /\ observers (home w') = observers (home w)
  /\ scheduledTasks (scheduler (home w')) = scheduledTasks (scheduler (home w))
  /\ triggers (automation (home w')) = triggers (automation (home w))
  /\ w' = w.
Proof.
  intros Hl Ht Hd w'.
  assert (Hw : w' = w).
  { subst w'. unfold SmartHomeSystem.addDevice, bind. now rewrite createDevice_unknown. }
  rewrite Hw. repeat split.
Qed.

Lemma C10_failed_addDevice_changes_nothing_witness :
  let w := guarded example_usage fresh in
  let w' := fst (SmartHomeSystem.addDevice "camera" (IdNum 4) w) in
  devices (home w') = devices (home w)
  /\ observers (home w') = observers (home w)
  /\ scheduledTasks (scheduler (home w')) = scheduledTasks (scheduler (home w))
  /\ triggers (automation (home w')) = triggers (automation (home w))
  /\ w' = w.
Proof.
  apply (C10_failed_addDevice_changes_nothing "camera" (IdNum 4)
           (guarded example_usage fresh)); discriminate.
Defined.

(** ** Lookups that miss *)

Lemma find_device_none (p : SmartDevice -> bool) (w : World) :
  (forall r d, In r (devices (home w)) -> heap w !! r = Some d -> p d = false) ->
  find_device p w = (w, Normal None).
Proof.
  intros H. unfold find_device, gets. f_equal. f_equal.
  induction (devices (home w)) as [|r rs IH]; simpl; [reflexivity|].
  destruct (heap w !! r) as [d|] eqn:E.
  - rewrite (H r d) by (simpl; auto). apply IH. intros; eapply H; simpl; eauto.
  - apply IH. intros; eapply H; simpl; eauto.
Qed.

(** C5: when no registered device has the given id, [SmartHomeSystem.turnOn] returns
    normally and the world is untouched: same devices with the same
    statuses, same observers, and no call of [notify]. *)
Theorem C5_turnOn_unknown_id (deviceId : JsId) (w : World) :
  (forall r d, In r (devices (home w)) -> heap w !! r = Some d ->
               strict_eq (id d) deviceId = false) ->
  SmartHomeSystem.turnOn deviceId w = (w, Normal tt).
Proof.
  intros H. unfold SmartHomeSystem.turnOn, bind.
  now rewrite (find_device_none _ w H).
Qed.

Lemma C5_turnOn_unknown_id_witness :
  SmartHomeSystem.turnOn (IdNum 9) (guarded example_usage fresh)
  = (guarded example_usage fresh, Normal tt).
Proof.
  apply (C5_turnOn_unknown_id (IdNum 9) (guarded example_usage fresh)).
  intros r d Hin Hd. simpl in Hin.
  destruct Hin as [<-|[<-|[<-|[]]]]; vm_compute in Hd;
    injection Hd as <-; reflexivity.
Defined.

(** ** Observers and devices *)

(** C9: in every world reached from a new hub through the hub's calls
    (addDevice, turnOn, turnOff, setSchedule, addTrigger, checkTriggers,
    getStatusReport, whether they return or throw), the observer array and
    the device array are the same list of references. *)
Theorem C9_observers_are_the_devices (w : World) :
  hub_reachable w -> observers (home w) = devices (home w).
Proof.
  intros [cs ->].
  apply (guarded_invariant
           (fun w => observers (home w) = devices (home w)) (fun _ => True)).
  - intros c w _. apply call_keeps_lists_equal.
  - apply Forall_forall. trivial.
  - reflexivity.
Qed.

Lemma C9_observers_are_the_devices_witness :
  let w := guarded example_usage fresh in
  observers (home w) = devices (home w).
Proof.
  apply (C9_observers_are_the_devices (guarded example_usage fresh)).
  exists [ CallAddDevice "light" (IdNum 1); CallAddDevice "thermostat" (IdNum 2);
           CallAddDevice "door" (IdNum 3); CallTurnOn (IdNum 1);
           CallSetSchedule (IdNum 2) "06:00" "Turn On";
           CallAddTrigger "temperature > 75" "turnOff(1)"; CallCheckTriggers ].
  reflexivity.
Defined.

(** Outside the control surface the equality is not protected: the
    inherited [removeObserver] takes a device out of one array only. *)
Lemma removeObserver_breaks_equality :
  let w := fst (Subject.removeObserver 0 (guarded example_usage fresh)) in
  observers (home w) = [1; 2] /\ devices (home w) = [0; 1; 2].
Proof. split; reflexivity. Qed.

(** ** Door locks *)

Lemma reachable_door_status (allowed : list string) (cs : list Call) :
  In "locked" allowed ->
  Forall (fun c => forall s, written_status c = Some s -> In s allowed) cs ->
  Forall (door_status_in allowed) (heap (guarded cs fresh)).
Proof.
  intros Hlocked Hcs.
  apply (guarded_invariant
           (fun w => Forall (door_status_in allowed) (heap w))
           (fun c => forall s, written_status c = Some s -> In s allowed)).
  - intros c w Hc Hw. now apply call_keeps_door_status.
  - exact Hcs.
  - constructor.
Qed.

Lemma written_status_cases (c : Call) (s : string) :
  written_status c = Some s ->
  s = "on" \/ s = "off" \/ s = "locked" \/ s = "unlocked".
Proof.
  destruct c as [[]|this []]; simpl; intros H; inversion H; auto.
Qed.

Lemma written_status_no_switch (c : Call) (s : string) :
  switches c = false -> written_status c = Some s ->
  s = "locked" \/ s = "unlocked".
Proof.
  unfold switches. destruct c as [[]|this []]; simpl; intros Hs H;
    inversion H; subst; auto; discriminate.
Qed.

(** C3, counterexample: a door lock registered by [addDevice] and then
    switched by [SmartHomeSystem.turnOn] has the status "on", which is neither "locked"
    nor "unlocked"; the exception thrown by the notification that follows
    does not undo the assignment. *)
Lemma C3_counterexample_door_turned_on :
  let w := fst (script [ OnHub (CallAddDevice "door" (IdNum 3));
                         OnHub (CallTurnOn (IdNum 3)) ] fresh) in
  reachable w
  /\ exists d, heap w !! 0 = Some d /\ class d = DoorLock
               /\ status d = "on"
               /\ status d <> "locked" /\ status d <> "unlocked".
Proof.
  split.
  - exists [ OnHub (CallAddDevice "door" (IdNum 3)); OnHub (CallTurnOn (IdNum 3)) ].
    reflexivity.
  - eexists. split; [reflexivity|]. repeat split; discriminate.
Qed.

(** ** Splitting conditions *)

Lemma str_split_not_nil (sep : ascii) (s : string) : str_split sep s <> [].
Proof.
  destruct s as [|c s]; simpl; [discriminate|].
  destruct (Ascii.eqb c sep); [discriminate|].
  destruct (str_split sep s); discriminate.
Qed.

Lemma str_split_app (sep : ascii) (p s : string) :
  has_char sep p = false ->
  str_split sep (p ++ String sep s)%string = p :: str_split sep s.
Proof.
  induction p as [|c p IH]; simpl; intros H.
  - now rewrite Ascii.eqb_refl.
  - rewrite Ascii.eqb_sym in H.
    destruct (Ascii.eqb c sep); [discriminate|].
    now rewrite IH.
Qed.

Lemma str_split_single (sep : ascii) (p : string) :
  has_char sep p = false -> str_split sep p = [p].
Proof.
  induction p as [|c p IH]; simpl; intros H; [reflexivity|].
  rewrite Ascii.eqb_sym in H.
  destruct (Ascii.eqb c sep); [discriminate|].
  now rewrite IH.
Qed.

Lemma str_split_pieces (sep : ascii) (s : string) :
  Forall (fun p => has_char sep p = false) (str_split sep s).
Proof.
  induction s as [|c s IH]; simpl.
  - repeat constructor.
  - destruct (Ascii.eqb c sep) eqn:E; [constructor; [reflexivity|exact IH]|].
    destruct (str_split sep s) as [|p ps]; [repeat constructor; simpl|].
    + rewrite Ascii.eqb_sym. now rewrite E.
    + inversion IH; subst. constructor; [|assumption].
      simpl. rewrite Ascii.eqb_sym. now rewrite E.
Qed.

(** Joining pieces that hold no separator and splitting again gives the
    pieces back. *)
Lemma str_split_join (sep : ascii) (ps : list string) :
  ps <> [] ->
  Forall (fun p => has_char sep p = false) ps ->
  str_split sep (join (String sep "") ps) = ps.
Proof.
  unfold join. induction ps as [|p ps IH]; intros Hne Hps; [congruence|].
  inversion Hps as [|? ? Hp Hps']; subst.
  destruct ps as [|q ps]; simpl.
  - now apply str_split_single.
  - change (String sep (String.concat (String sep "") (q :: ps)))
      with (String sep "" ++ String.concat (String sep "") (q :: ps))%string.
    simpl String.append. rewrite str_split_app by exact Hp.
    f_equal. apply IH; [discriminate|exact Hps'].
Qed.

(** ** Rules *)

Lemma fired_lines_app (d : SmartDevice) (ts1 ts2 : list Trigger) :
  fired_lines d (ts1 ++ ts2) = fired_lines d ts1 ++ fired_lines d ts2.
Proof. unfold fired_lines. now rewrite List.filter_app, map_app. Qed.

Lemma fired_lines_skip (d : SmartDevice) (before after : list Trigger) (rule : Trigger) :
  Automation.trigger_met d rule = false ->
  fired_lines d (before ++ rule :: after)
  = fired_lines d before ++ fired_lines d after.
Proof.
  intros H. rewrite fired_lines_app. f_equal.
  unfold fired_lines. simpl. now rewrite H.
Qed.

Lemma js_gt_NaN (a : option Z) : js_gt a None = false.
Proof. destruct a; reflexivity. Qed.

Lemma trigger_met_NaN (d : SmartDevice) (rule : Trigger) :
  parseInt (string_or_undefined (str_split " " (condition rule) !! 2)) = None ->
  Automation.trigger_met d rule = false.
Proof.
  intros H. unfold Automation.trigger_met.
  rewrite H, js_gt_NaN. apply andb_false_r.
Qed.

(** C4: with the single rule ("temperature > 75", "turnOff(1)"),
    [checkTriggers] on a thermostat at 80 degrees reports the rule as met
    (one line on the console, naming the condition and the action) and on a
    thermostat at 70 degrees reports nothing. *)
Theorem C4_rule_fires_at_80_not_at_70 (w : World) (thermostat : ref) (d : SmartDevice) :
  heap w !! thermostat = Some d ->
  triggers (automation (home w))
  = [{| condition := "temperature > 75"; action := "turnOff(1)" |}] ->
  (temperature d = Some 80%Z ->
   Automation.checkTriggers thermostat w
   = (with_events
        (fun es => es ++ [ConsoleLog
           "Trigger met: temperature > 75. Executing: turnOff(1)"]) w,
      Normal tt))
  /\ (temperature d = Some 70%Z ->
      Automation.checkTriggers thermostat w = (w, Normal tt)).
Proof.
  intros Hd Hts. split; intros Ht;
    rewrite (checkTriggers_eq _ _ _ Hd), Hts;
    unfold fired_lines, Automation.trigger_met; simpl; rewrite Ht; simpl.
  - reflexivity.
  - now rewrite with_events_nil.
Qed.

Lemma C4_rule_fires_at_80_not_at_70_witness :
  events (fst (Automation.checkTriggers 0
                 (thermostat_world 80 [("temperature > 75", "turnOff(1)")])))
  = events (thermostat_world 80 [("temperature > 75", "turnOff(1)")])
    ++ [ConsoleLog "Trigger met: temperature > 75. Executing: turnOff(1)"]
  /\ Automation.checkTriggers 0
       (thermostat_world 70 [("temperature > 75", "turnOff(1)")])
     = (thermostat_world 70 [("temperature > 75", "turnOff(1)")], Normal tt).
Proof.
  split.
  - destruct (C4_rule_fires_at_80_not_at_70
                (thermostat_world 80 [("temperature > 75", "turnOff(1)")]) 0
                (Thermostat.constructor (IdNum 2) 80)
                eq_refl eq_refl) as [H80 _].
    rewrite (H80 eq_refl). reflexivity.
  - destruct (C4_rule_fires_at_80_not_at_70
                (thermostat_world 70 [("temperature > 75", "turnOff(1)")]) 0
                (Thermostat.constructor (IdNum 2) 70)
                eq_refl eq_refl) as [_ H70].
    exact (H70 eq_refl).
Defined.

(** C6, counterexample: the condition "temperature > 75 extra" splits into
    four pieces, and against a thermostat at 80 degrees the rule is reported
    as met. *)
Lemma C6_counterexample_four_pieces_fire :
  let w := thermostat_world 80 [("temperature > 75 extra", "turnOff(1)")] in
  length (str_split " " "temperature > 75 extra") = 4
  /\ Automation.checkTriggers 0 w
     = (with_events
          (fun es => es ++ [ConsoleLog
             "Trigger met: temperature > 75 extra. Executing: turnOff(1)"]) w,
        Normal tt).
Proof. split; reflexivity. Qed.

(** ** The thermostat of checkTriggers *)

Lemma find_device_first (p : SmartDevice -> bool) (w : World)
    (before after : list ref) (r : ref) (d : SmartDevice) :
  devices (home w) = before ++ r :: after ->
  heap w !! r = Some d ->
  p d = true ->
  (forall r' d', In r' before -> heap w !! r' = Some d' -> p d' = false) ->
  find_device p w = (w, Normal (Some r)).
Proof.
  intros Hds Hd Hp Hbefore. unfold find_device, gets. rewrite Hds.
  f_equal. f_equal. clear Hds.
  induction before as [|r' before IH]; simpl.
  - now rewrite Hd, Hp.
  - destruct (heap w !! r') as [d'|] eqn:E.
    + rewrite (Hbefore r' d') by (simpl; auto).
      apply IH. intros; eapply Hbefore; simpl; eauto.
    + apply IH. intros; eapply Hbefore; simpl; eauto.
Qed.

(** C8: [SmartHomeSystem.checkTriggers] evaluates the rules against the first registered
    device whose type is "Thermostat" and against no other: what it writes
    is what the rules give on that one object.  With no such device it
    returns at once, leaving the world as it was. *)
Theorem C8_first_thermostat_only (w : World) :
  (forall before after thermostat d,
      devices (home w) = before ++ thermostat :: after ->
      heap w !! thermostat = Some d ->
      type d = "Thermostat" ->
      (forall r d', In r before -> heap w !! r = Some d' -> type d' <> "Thermostat") ->
      SmartHomeSystem.checkTriggers w = Automation.checkTriggers thermostat w
      /\ SmartHomeSystem.checkTriggers w
         = (with_events
              (fun es => es ++ fired_lines d (triggers (automation (home w)))) w,
            Normal tt))
  /\ ((forall r d', In r (devices (home w)) -> heap w !! r = Some d' ->
                    type d' <> "Thermostat") ->
      SmartHomeSystem.checkTriggers w = (w, Normal tt)).
Proof.
  split.
  - intros before after thermostat d Hds Hd Hty Hbefore.
    assert (Hfind : find_device (fun d => String.eqb (type d) "Thermostat") w
                    = (w, Normal (Some thermostat))).
    { eapply find_device_first; eauto.
      - now apply String.eqb_eq.
      - intros r d' Hin Hd'. apply String.eqb_neq. eauto. }
    unfold SmartHomeSystem.checkTriggers, bind. rewrite Hfind.
    split; [reflexivity|]. now apply checkTriggers_eq.
  - intros Hnone. unfold SmartHomeSystem.checkTriggers, bind.
    rewrite find_device_none; [reflexivity|].
    intros r d' Hin Hd'. apply String.eqb_neq. eauto.
Qed.

Lemma C8_first_thermostat_only_witness :
  (let w := guarded [ OnHub (CallAddDevice "light" (IdNum 1));
                      OnHub (CallAddDevice "thermostat" (IdNum 2));
                      OnHub (CallAddDevice "thermostat" (IdNum 5));
                      OnDevice 2 (CallSetTemperature 90);
                      OnHub (CallAddTrigger "temperature > 75" "turnOff(1)") ] fresh in
   SmartHomeSystem.checkTriggers w = (w, Normal tt))
  /\ (let w := guarded [ OnHub (CallAddDevice "light" (IdNum 1));
                         OnHub (CallAddDevice "door" (IdNum 3));
                         OnHub (CallAddTrigger "temperature > 75" "turnOff(1)") ] fresh in
      SmartHomeSystem.checkTriggers w = (w, Normal tt)).
Proof.
  split; intros w.
  - destruct (C8_first_thermostat_only w) as [Hfirst _].
    destruct (Hfirst [0] [2] 1
                (Thermostat.constructor (IdNum 2) 70) eq_refl eq_refl eq_refl)
      as [_ H].
    + intros r d' [<-|[]] Hd'. vm_compute in Hd'. injection Hd' as <-. discriminate.
    + rewrite H. reflexivity.
  - destruct (C8_first_thermostat_only w) as [_ Hnone]. apply Hnone.
    intros r d' Hin Hd'. simpl in Hin.
    destruct Hin as [<-|[<-|[]]]; vm_compute in Hd'; injection Hd' as <-;
      discriminate.
Defined.

(** ** The end-to-end sequence *)

(** C1: evaluation of the sequence on a new hub.  The three [addDevice]
    calls return; [turnOn(1)] sets the light to "on", calls [notify], and
    the first observer's inherited [update] throws.  The sequence ends
    there: nothing is scheduled, no trigger is added, [checkTriggers] and
    the status report are never reached. *)
Theorem C1_sequence_throws_in_turnOn :
  snd (script (take 3 example_usage) fresh) = Normal tt
  /\ snd (script (take 4 example_usage) fresh) = Throw unimplemented
  /\ script example_usage fresh = script (take 4 example_usage) fresh
  /\ (bind (script example_usage) (fun _ => SmartHomeSystem.getStatusReport)) fresh
     = (fst (script (take 4 example_usage) fresh), Throw unimplemented)
  /\ (let w := fst (script example_usage fresh) in
      option_map status (heap w !! 0) = Some "on"
      /\ events w = [Notify {| notified_action := "turnOn"; deviceId := IdNum 1 |}]
      /\ scheduledTasks (scheduler (home w)) = []
      /\ triggers (automation (home w)) = []).
Proof. repeat split. Qed.

(** What the sequence would leave if every call were wrapped in
    [try]/[catch]: the three lines, the one task and no fired rule that the
    end-to-end description lists. *)
Lemma example_usage_guarded :
  let w := guarded example_usage fresh in
  snd (SmartHomeSystem.getStatusReport w)
  = Normal (join (String "010"%char "")
              ["Light 1 is on"; "Thermostat 2 is set to 70 degrees.";
               "Door 3 is locked"])
  /\ scheduledTasks (scheduler (home w))
     = [{| device := 1; time := "06:00"; command := "Turn On" |}]
  /\ option_map id (heap w !! 1) = Some (IdNum 2)
  /\ fired_lines (Thermostat.constructor (IdNum 2) 70)
       (triggers (automation (home w))) = [].
Proof. repeat split. Qed.

(** * Further properties of the source *)

(** ** Every call, field by field *)

Lemma find_device_Some (p : SmartDevice -> bool) (w : World) (r : ref) :
  List.find (fun r => match heap w !! r with
                      | Some d => p d
                      | None => false
                      end) (devices (home w)) = Some r ->
  In r (devices (home w)) /\ exists d, heap w !! r = Some d /\ p d = true.
Proof.
  intros H. apply List.find_some in H as [Hin Hp]. split; [exact Hin|].
  destruct (heap w !! r) as [d|]; [eauto | discriminate].
Qed.

Lemma quiet {c : Call} {w : World} : outcome c w w.
Proof. apply (out_quiet c w w []); auto. now rewrite app_nil_r. Qed.

Lemma hub_call_outcome (c : HubCall) (w : World) :
  outcome (OnHub c) w (fst (hub_call c w)).
Proof.
  destruct c; simpl.
  - (* addDevice *)
    unfold_methods.
    destruct (String.eqb type0 "light"); simpl;
      [eapply out_register; [apply constructed_light|..]; reflexivity|].
    destruct (String.eqb type0 "thermostat"); simpl;
      [eapply out_register; [apply constructed_thermostat|..]; reflexivity|].
    destruct (String.eqb type0 "door"); simpl;
      [eapply out_register; [apply constructed_door|..]; reflexivity|].
    apply quiet.
  - (* turnOn *)
    unfold_methods.
    destruct (List.find _ _) as [r|] eqn:F; simpl; [|apply quiet].
    apply find_device_Some in F as [_ [d [Hd _]]]. rewrite Hd. simpl.
    rewrite notify_eq. simpl.
    eapply (out_status _ _ _ r d "on"); eauto;
      destruct (observers (home w)); reflexivity.
  - (* turnOff *)
    unfold_methods.
    destruct (List.find _ _) as [r|] eqn:F; simpl; [|apply quiet].
    apply find_device_Some in F as [_ [d [Hd _]]]. rewrite Hd. simpl.
    rewrite notify_eq. simpl.
    eapply (out_status _ _ _ r d "off"); eauto;
      destruct (observers (home w)); reflexivity.
  - (* setSchedule *)
    unfold_methods.
    destruct (List.find _ _) as [r|] eqn:F; simpl; [|apply quiet].
    apply find_device_Some in F as [Hin [d [Hd _]]]. rewrite Hd. simpl.
    eapply out_task; eauto; reflexivity.
  - (* addTrigger *)
    unfold_methods. simpl. eapply out_trigger; reflexivity.
  - (* checkTriggers *)
    unfold SmartHomeSystem.checkTriggers, returning_undefined, find_device, bind,
      gets, ret.
    destruct (List.find _ _) as [r|] eqn:F; simpl; [|apply quiet].
    apply find_device_Some in F as [_ [d [Hd _]]].
    rewrite (checkTriggers_eq _ _ _ Hd). simpl.
    eapply out_quiet; reflexivity.
  - (* getStatusReport *)
    unfold returning_string, bind, ret.
    pose proof (getStatusReport_fst w) as H.
    destruct (SmartHomeSystem.getStatusReport w) as [w1 [s|e]]; simpl in *;
      subst w1; apply quiet.
Qed.

Lemma device_call_outcome (this : ref) (c : DeviceCall) (w : World) :
  outcome (OnDevice this c) w (fst (device_call this c w)).
Proof.
  destruct c; simpl.
  - unfold_methods. destruct (heap w !! this) as [d|] eqn:E; simpl; [|apply quiet].
    eapply (out_status _ _ _ this d "on" []); eauto; simpl; now rewrite ?app_nil_r.
  - unfold_methods. destruct (heap w !! this) as [d|] eqn:E; simpl; [|apply quiet].
    eapply (out_status _ _ _ this d "off" []); eauto; simpl; now rewrite ?app_nil_r.
  - unfold returning_string, bind, ret.
    pose proof (getStatus_fst this w) as H.
    destruct (getStatus this w) as [w1 [s|e]]; simpl in *; subst w1; apply quiet.
  - unfold_methods. destruct (heap w !! this) as [d|] eqn:E; simpl; [|apply quiet].
    destruct (class d) eqn:C; simpl; try apply quiet.
    destruct (alter (set_temperature temp) this (heap w) !! this); simpl.
    + eapply (out_temperature _ _ _ this d temp); eauto; reflexivity.
    + eapply (out_temperature _ _ _ this d temp []); eauto; simpl;
        now rewrite ?app_nil_r.
  - unfold_methods. destruct (heap w !! this) as [d|] eqn:E; simpl; [|apply quiet].
    destruct (class d) eqn:C; simpl; try apply quiet.
    eapply (out_status _ _ _ this d "locked" []); eauto; simpl; now rewrite ?app_nil_r.
  - unfold_methods. destruct (heap w !! this) as [d|] eqn:E; simpl; [|apply quiet].
    destruct (class d) eqn:C; simpl; try apply quiet.
    eapply (out_status _ _ _ this d "unlocked" []); eauto; simpl;
      now rewrite ?app_nil_r.
  - unfold_methods. simpl. destruct (heap w !! this) as [d|] eqn:E; simpl;
      rewrite ?E; simpl; [|apply quiet].
    eapply (out_status _ _ _ this d "on"); eauto; reflexivity.
  - unfold_methods. simpl. destruct (heap w !! this) as [d|] eqn:E; simpl;
      rewrite ?E; simpl; [|apply quiet].
    eapply (out_status _ _ _ this d "off"); eauto; reflexivity.
  - unfold returning_string, DeviceProxy.getStatus, bind, ret.
    pose proof (getStatus_fst this w) as H.
    destruct (getStatus this w) as [w1 [s|e]]; simpl in *; subst w1; apply quiet.
Qed.

Lemma call_outcome (c : Call) (w : World) : outcome c w (fst (call c w)).
Proof. destruct c; [apply hub_call_outcome | apply device_call_outcome]. Qed.

(** ** Nothing is taken away *)

Lemma prefix_of_refl' {A} (l : list A) : l `prefix_of` l.
Proof. exists []. now rewrite app_nil_r. Qed.

Lemma grows_refl (w : World) : grows w w.
Proof. repeat split; try apply prefix_of_refl'. lia. Qed.

Lemma grows_trans (w1 w2 w3 : World) : grows w1 w2 -> grows w2 w3 -> grows w1 w3.
Proof.
  intros (A1 & A2 & A3 & A4 & A5 & A6) (B1 & B2 & B3 & B4 & B5 & B6).
  repeat split; etransitivity; eassumption.
Qed.

Lemma call_grows (c : Call) (w : World) : grows w (fst (call c w)).
Proof.
  unfold grows.
  destruct (call_outcome c w)
    as [es Hh Hm He | d Hc Hh Hm He | r d s es Hd Hs Hcl Hh Hm He
       | r d t es Hd Hcl Hc Hh Hm He | r d tm cmd es Hin Hd Hh Hm He
       | cnd act es Hh Hm He];
    rewrite Hh, Hm, He; simpl;
    rewrite ?length_app, ?length_alter;
    repeat split;
    try apply prefix_of_refl'; try (eexists; reflexivity); try lia.
Qed.

(** X1: whatever calls are made, and whether they return or throw, the
    device array, the observer array, the scheduled tasks, the triggers and
    the console only ever get longer at the end: what was there stays, in
    the same order.  The heap never loses an object. *)
Theorem calls_never_remove (cs : list Call) (w : World) :
  grows w (guarded cs w).
Proof.
  apply (guarded_invariant (fun w' => grows w w') (fun _ => True)).
  - intros c w' _ H. eapply grows_trans; [exact H | apply call_grows].
  - apply Forall_forall. trivial.
  - apply grows_refl.
Qed.

(** ** References stay in order *)

Lemma call_keeps_references (c : Call) (w : World) :
  references_in_order w -> references_in_order (fst (call c w)).
Proof.
  unfold references_in_order. intros (Hds & Hobs & Hts).
  assert (Hlive : forall r, In r (devices (home w)) -> r < length (heap w)).
  { intros r Hr. rewrite Hds in Hr. apply in_seq in Hr. lia. }
  destruct (call_outcome c w)
    as [es Hh Hm He | d Hc Hh Hm He | r d s es Hd Hs Hcl Hh Hm He
       | r d t es Hd Hcl Hc Hh Hm He | r d tm cmd es Hin Hd Hh Hm He
       | cnd act es Hh Hm He];
    rewrite Hh, Hm; simpl; rewrite ?length_alter.
  - auto.
  - rewrite length_app. simpl. rewrite Nat.add_1_r, seq_S. simpl.
    rewrite Hds, Hobs, Hds. repeat split.
    eapply Forall_impl; [exact Hts|]. intros tk [Hin' [x Hx]]. split.
    + rewrite <- Hds. apply in_or_app. auto.
    + exists x. now apply lookup_app_l_Some.
  - repeat split; auto.
    eapply Forall_impl; [exact Hts|]. intros tk [Hin' [x Hx]]. split; [exact Hin'|].
    apply lookup_lt_is_Some. rewrite length_alter. now apply Hlive.
  - repeat split; auto.
    eapply Forall_impl; [exact Hts|]. intros tk [Hin' [x Hx]]. split; [exact Hin'|].
    apply lookup_lt_is_Some. rewrite length_alter. now apply Hlive.
  - repeat split; auto.
    apply Forall_app. split; [exact Hts|]. repeat constructor; simpl; eauto.
  - auto.
Qed.

Lemma reachable_call (c : Call) (w : World) :
  reachable w -> reachable (fst (call c w)).
Proof.
  intros [cs ->]. exists (cs ++ [c]). now rewrite guarded_app.
Qed.

Lemma reachable_references (w : World) : reachable w -> references_in_order w.
Proof.
  intros [cs ->].
  apply (guarded_invariant references_in_order (fun _ => True)).
  - intros c w _. apply call_keeps_references.
  - apply Forall_forall. trivial.
  - repeat split. constructor.
Qed.

(** X2: in every world a program reaches from a new hub, the registered
    devices are exactly the objects that were created, in creation order
    (no reference is dangling, none is registered twice), the observers are
    the same references, and every scheduled task points at a registered
    device that still exists. *)
Theorem reachable_references_in_order (w : World) :
  reachable w ->
  devices (home w) = seq 0 (length (heap w))
  /\ observers (home w) = devices (home w)
  /\ NoDup (devices (home w))
  /\ Forall (fun t => In (device t) (devices (home w))
                      /\ is_Some (heap w !! device t))
            (scheduledTasks (scheduler (home w))).
Proof.
  intros Hw. destruct (reachable_references w Hw) as (Hds & Hobs & Hts).
  repeat split; auto. rewrite Hds. apply NoDup_seq.
Qed.

Lemma reachable_references_in_order_witness :
  let w := guarded example_usage fresh in
  devices (home w) = seq 0 (length (heap w))
  /\ observers (home w) = devices (home w)
  /\ NoDup (devices (home w))
  /\ Forall (fun t => In (device t) (devices (home w))
                      /\ is_Some (heap w !! device t))
            (scheduledTasks (scheduler (home w))).
Proof.
  apply (reachable_references_in_order (guarded example_usage fresh)).
  exists example_usage. reflexivity.
Defined.

(** ** What an object keeps for life *)

Lemma call_keeps_identity (c : Call) (w : World) (r : ref) (d : SmartDevice) :
  heap w !! r = Some d ->
  exists d', heap (fst (call c w)) !! r = Some d'
             /\ id d' = id d /\ class d' = class d /\ type d' = type d.
Proof.
  intros Hr.
  destruct (call_outcome c w)
    as [es Hh Hm He | d0 Hc Hh Hm He | r0 d0 s es Hd Hs Hcl Hh Hm He
       | r0 d0 t es Hd Hcl Hc Hh Hm He | r0 d0 tm cmd es Hin Hd Hh Hm He
       | cnd act es Hh Hm He];
    rewrite Hh; unfold ref in *.
  - eauto.
  - exists d. split; [now apply lookup_app_l_Some | auto].
  - destruct (decide (r0 = r)) as [->|Hne].
    + rewrite list_lookup_alter_eq, Hr. simpl. eauto.
    + rewrite list_lookup_alter_ne by exact Hne. eauto.
  - destruct (decide (r0 = r)) as [->|Hne].
    + rewrite list_lookup_alter_eq, Hr. simpl. eauto.
    + rewrite list_lookup_alter_ne by exact Hne. eauto.
  - eauto.
  - eauto.
Qed.

(** X3: an object that exists keeps existing under every sequence of calls,
    at the same reference and with the same id, class and type: no call
    renames, retypes or deletes a device. *)
Theorem device_identity_is_permanent
    (cs : list Call) (w : World) (r : ref) (d : SmartDevice) :
  heap w !! r = Some d ->
  exists d', heap (guarded cs w) !! r = Some d'
             /\ id d' = id d /\ class d' = class d /\ type d' = type d.
Proof.
  revert w d. induction cs as [|c cs IH]; intros w d Hr; simpl.
  - eauto.
  - destruct (call_keeps_identity c w r d Hr) as (d1 & H1 & Hi & Hc & Ht).
    destruct (IH _ _ H1) as (d2 & H2 & Hi2 & Hc2 & Ht2).
    exists d2. repeat split; congruence.
Qed.

Lemma device_identity_is_permanent_witness :
  exists d', heap (guarded [ OnHub (CallTurnOn (IdNum 3)); OnDevice 2 CallUnlock;
                             OnHub (CallAddDevice "light" (IdNum 3)) ]
                     (guarded example_usage fresh)) !! 2 = Some d'
             /\ id d' = IdNum 3 /\ class d' = DoorLock /\ type d' = "Door".
Proof.
  apply (device_identity_is_permanent
           [ OnHub (CallTurnOn (IdNum 3)); OnDevice 2 CallUnlock;
             OnHub (CallAddDevice "light" (IdNum 3)) ]
           (guarded example_usage fresh) 2 (DoorLock.constructor (IdNum 3))).
  reflexivity.
Defined.

(** ** Fields by class *)

Lemma call_keeps_well_formed (c : Call) (w : World) :
  Forall well_formed_device (heap w) ->
  Forall well_formed_device (heap (fst (call c w))).
Proof.
  intros Hw.
  destruct (call_outcome c w)
    as [es Hh Hm He | d0 Hc Hh Hm He | r0 d0 s es Hd Hs Hcl Hh Hm He
       | r0 d0 t es Hd Hcl Hc Hh Hm He | r0 d0 tm cmd es Hin Hd Hh Hm He
       | cnd act es Hh Hm He];
    rewrite Hh; unfold ref in *; auto.
  - apply Forall_app. split; [exact Hw|]. repeat constructor.
    destruct Hc; unfold well_formed_device; simpl; auto.
  - apply Forall_alter; [exact Hw|]. intros d Hd' Hwf.
    assert (d = d0) as -> by congruence.
    unfold well_formed_device in *. simpl.
    destruct (class d0) eqn:C; destruct Hcl as [Hcl|[->| ->]];
      try discriminate; intuition.
  - apply Forall_alter; [exact Hw|]. intros d Hd' Hwf.
    assert (d = d0) as -> by congruence.
    unfold well_formed_device in *. simpl. rewrite Hcl in *. intuition eauto.
Qed.

(** X4: in every reachable world each object has the fields of its class:
    a light is typed "Light", has no temperature and is "on" or "off"; a
    thermostat is typed "Thermostat", always has a temperature and is "on"
    or "off"; a door lock is typed "Door" and has no temperature.  In
    particular "locked" and "unlocked" never land on a light or a
    thermostat, and the device [checkTriggers] picks by its type string is an
    object of class Thermostat with a temperature to compare. *)
Theorem reachable_devices_well_formed (w : World) :
  reachable w -> Forall well_formed_device (heap w).
Proof.
  intros [cs ->].
  apply (guarded_invariant (fun w => Forall well_formed_device (heap w))
           (fun _ => True)).
  - intros c w _. apply call_keeps_well_formed.
  - apply Forall_forall. trivial.
  - constructor.
Qed.

Lemma reachable_devices_well_formed_witness :
  Forall well_formed_device
    (heap (guarded (example_usage ++ [OnDevice 1 (CallSetTemperature 80);
                                      OnDevice 0 CallLock]) fresh)).
Proof.
  apply (reachable_devices_well_formed
           (guarded (example_usage ++ [OnDevice 1 (CallSetTemperature 80);
                                       OnDevice 0 CallLock]) fresh)).
  exists (example_usage ++ [OnDevice 1 (CallSetTemperature 80);
                            OnDevice 0 CallLock]).
  reflexivity.
Defined.

(** ** Status lines and the report *)

Lemma getStatus_eq (this : ref) (d : SmartDevice) (w : World) :
  heap w !! this = Some d ->
  getStatus this w = (w, Normal (status_line d)).
Proof.
  intros H. unfold getStatus, status_line, bind, deref. rewrite H.
  destruct (class d);
    unfold SmartDevice.getStatus, Thermostat.getStatus, DoorLock.getStatus,
      bind, deref; rewrite H; reflexivity.
Qed.

Lemma status_lines_eq (w : World) (objs : list SmartDevice) :
  forall k,
    (forall i d, objs !! i = Some d -> heap w !! (k + i) = Some d) ->
    SmartHomeSystem.status_lines (seq k (length objs)) w
    = (w, Normal (map status_line objs)).
Proof.
  induction objs as [|d objs IH]; intros k H; simpl; [reflexivity|].
  unfold bind at 1.
  rewrite (getStatus_eq k d w) by (replace k with (k + 0) by lia; now apply H).
  unfold bind at 1. rewrite (IH (S k)); [reflexivity|].
  intros i d' Hi. replace (S k + i) with (k + S i) by lia. now apply H.
Qed.

(** X5: in every reachable world [getStatusReport] returns (it never
    throws), leaves the world as it is, and its text is the status lines of
    all created devices, in registration order, joined by newlines. *)
Theorem getStatusReport_of_reachable (w : World) :
  reachable w ->
  SmartHomeSystem.getStatusReport w
  = (w, Normal (join (String "010"%char "") (map status_line (heap w)))).
Proof.
  intros Hw. destruct (reachable_references w Hw) as (Hds & _ & _).
  unfold SmartHomeSystem.getStatusReport, bind, gets. rewrite Hds.
  rewrite (status_lines_eq w (heap w) 0); [reflexivity|]. auto.
Qed.

Lemma getStatusReport_of_reachable_witness :
  SmartHomeSystem.getStatusReport (guarded example_usage fresh)
  = (guarded example_usage fresh,
     Normal (join (String "010"%char "")
               (map status_line (heap (guarded example_usage fresh))))).
Proof.
  apply (getStatusReport_of_reachable (guarded example_usage fresh)).
  exists example_usage. reflexivity.
Defined.

Lemma status_line_thermostat (s : string) (d : SmartDevice) :
  class d = Thermostat -> status_line (set_status s d) = status_line d.
Proof. intros H. unfold status_line. simpl. now rewrite H. Qed.

(** X6: a thermostat's status line shows its temperature and not its
    on/off state: switching a thermostat on or off, directly or through a
    proxy, leaves what [getStatus] returns for it unchanged. *)
Theorem thermostat_status_ignores_switch (this : ref) (d : SmartDevice) (w : World) :
  heap w !! this = Some d ->
  class d = Thermostat ->
  snd (getStatus this (fst (turnOn this w))) = snd (getStatus this w)
  /\ snd (getStatus this (fst (turnOff this w))) = snd (getStatus this w)
  /\ snd (getStatus this (fst (DeviceProxy.turnOn this w))) = snd (getStatus this w)
  /\ snd (getStatus this (fst (DeviceProxy.turnOff this w))) = snd (getStatus this w).
Proof.
  intros Hd Hc.
  rewrite (getStatus_eq this d w Hd).
  repeat split; unfold_methods; unfold ref in *; simpl; rewrite Hd; simpl;
    rewrite ?Hd; simpl.
  all: erewrite getStatus_eq
    by (simpl; rewrite list_lookup_alter_eq, Hd; reflexivity).
  all: simpl; now rewrite status_line_thermostat.
Qed.

Lemma thermostat_status_ignores_switch_witness :
  let w := guarded example_usage fresh in
  snd (getStatus 1 (fst (turnOn 1 w))) = snd (getStatus 1 w)
  /\ snd (getStatus 1 (fst (turnOff 1 w))) = snd (getStatus 1 w)
  /\ snd (getStatus 1 (fst (DeviceProxy.turnOn 1 w))) = snd (getStatus 1 w)
  /\ snd (getStatus 1 (fst (DeviceProxy.turnOff 1 w))) = snd (getStatus 1 w).
Proof.
  apply (thermostat_status_ignores_switch 1
           (Thermostat.constructor (IdNum 2) 70) (guarded example_usage fresh));
    reflexivity.
Defined.



(** ** Subject: adding and removing observers *)

Lemma home_eta (h : SmartHomeSystem) :
  {| observers := observers h; devices := devices h;
     scheduler := scheduler h; automation := automation h |} = h.
Proof. destruct h; reflexivity. Qed.

Lemma filter_keeps_others (o : ref) (obs : list ref) :
  ~ In o obs -> List.filter (fun x => negb (Nat.eqb x o)) obs = obs.
Proof.
  induction obs as [|x obs IH]; simpl; intros H; [reflexivity|].
  destruct (Nat.eqb_spec x o) as [->|Hne]; simpl.
  - exfalso. apply H. now left.
  - rewrite IH; [reflexivity|]. intros Hin. apply H. now right.
Qed.

Lemma filter_drops (o : ref) (n : nat) :
  List.filter (fun x => negb (Nat.eqb x o)) (repeat o n) = [].
Proof. induction n; simpl; [reflexivity|]. now rewrite Nat.eqb_refl. Qed.

(** X9: [removeObserver] undoes [addObserver], however many times the
    observer was added: if it was not an observer before, adding it [n]
    times (duplicates are kept) and removing it once gives back the world
    there was. *)
Theorem removeObserver_undoes_addObserver (o : ref) (n : nat) (w : World) :
  ~ In o (observers (home w)) ->
  let added := fst (forEach (fun _ : unit => Subject.addObserver o) (repeat tt n) w) in
  observers (home added) = observers (home w) ++ repeat o n
  /\ fst (Subject.removeObserver o added) = w.
Proof.
  intros Hfresh added.
  assert (Hadded : added
                   = with_home (with_observers (fun obs => obs ++ repeat o n)) w).
  { subst added. clear Hfresh. revert w. induction n as [|n IH]; intros w; simpl.
    - unfold with_home, with_observers. simpl. rewrite app_nil_r, home_eta.
      now rewrite world_eta.
    - unfold bind. simpl. rewrite IH.
      unfold with_home, with_observers. simpl. now rewrite <- app_assoc. }
  rewrite Hadded. split; [reflexivity|].
  unfold Subject.removeObserver, modify, with_home, with_observers. simpl.
  rewrite List.filter_app, filter_drops, app_nil_r.
  rewrite filter_keeps_others by exact Hfresh.
  now rewrite home_eta, world_eta.
Qed.

Lemma removeObserver_undoes_addObserver_witness :
  let w := guarded example_usage fresh in
  let added := fst (forEach (fun _ : unit => Subject.addObserver 7) (repeat tt 2) w) in
  observers (home added) = observers (home w) ++ repeat 7 2
  /\ fst (Subject.removeObserver 7 added) = w.
Proof.
  apply (removeObserver_undoes_addObserver 7 2 (guarded example_usage fresh)).
  simpl. intros [H|[H|[H|[]]]]; discriminate.
Defined.

(** ** addDevice *)

(** X11: [addDevice] returns normally exactly for the kinds "light",
    "thermostat" and "door", and then the new object is what the kind's
    constructor builds for the id (status "off", or "locked" for a door;
    temperature 70 for a thermostat), placed behind all existing objects
    and registered last in both arrays.  No check is made on the id. *)
Theorem addDevice_succeeds_iff_known_kind (type : string) (id : JsId) (w : World) :
  (snd (SmartHomeSystem.addDevice type id w) = Normal tt
   <-> type = "light" \/ type = "thermostat" \/ type = "door")
  /\ (snd (SmartHomeSystem.addDevice type id w) = Normal tt ->
      let w' := fst (SmartHomeSystem.addDevice type id w) in
      let d := if String.eqb type "light" then Light.constructor id
               else if String.eqb type "thermostat"
                    then Thermostat.constructor id 70
                    else DoorLock.constructor id in
      heap w' = heap w ++ [d]
      /\ devices (home w') = devices (home w) ++ [length (heap w)]
      /\ observers (home w') = observers (home w) ++ [length (heap w)]
      /\ scheduler (home w') = scheduler (home w)
      /\ automation (home w') = automation (home w)
      /\ events w' = events w).
Proof.
  unfold SmartHomeSystem.addDevice, SmartDeviceFactory.createDevice, bind.
  destruct (String.eqb_spec type "light") as [->|Hl]; simpl;
    [split; [split; auto|]; intros _; repeat split|].
  destruct (String.eqb_spec type "thermostat") as [->|Ht]; simpl;
    [split; [split; auto|]; intros _; repeat split|].
  destruct (String.eqb_spec type "door") as [->|Hd]; simpl;
    [split; [split; auto|]; intros _; repeat split|].
  split; [split|]; try discriminate. intros [?|[?|?]]; congruence.
Qed.

Lemma addDevice_succeeds_iff_known_kind_witness :
  let w := guarded example_usage fresh in
  let w' := fst (SmartHomeSystem.addDevice "door" (IdNum 3) w) in
  heap w' = heap w ++ [DoorLock.constructor (IdNum 3)]
  /\ devices (home w') = [0; 1; 2; 3]
  /\ observers (home w') = [0; 1; 2; 3]
  /\ scheduler (home w') = scheduler (home w)
  /\ automation (home w') = automation (home w)
  /\ events w' = events w.
Proof.
  intros w.
  destruct (addDevice_succeeds_iff_known_kind "door" (IdNum 3) w) as [_ H].
  apply H. reflexivity.
Defined.

(** ** turnOn, turnOff and setSchedule on a registered id *)

(** X12: with the observers being the devices (as in every reachable
    world), [turnOn] and [turnOff] on an id that is registered assign the
    status to the first device with that id (later devices with the same id
    and every other object stay as they are), call [notify] and then throw
    the "should be implemented" string: the assignment is kept, the caller
    gets an exception. *)
Theorem switching_a_registered_device_throws
    (deviceId : JsId) (w : World) (before after : list ref) (r : ref)
    (d : SmartDevice) :
  devices (home w) = before ++ r :: after ->
  observers (home w) = devices (home w) ->
  heap w !! r = Some d ->
  strict_eq (id d) deviceId = true ->
  (forall r' d', In r' before -> heap w !! r' = Some d' ->
                 strict_eq (id d') deviceId = false) ->
  SmartHomeSystem.turnOn deviceId w
  = (with_events
       (fun es => es ++ [Notify {| notified_action := "turnOn";
                                   deviceId := deviceId |}])
       (with_heap (alter (set_status "on") r) w),
     Throw unimplemented)
  /\ SmartHomeSystem.turnOff deviceId w
     = (with_events
          (fun es => es ++ [Notify {| notified_action := "turnOff";
                                      deviceId := deviceId |}])
          (with_heap (alter (set_status "off") r) w),
        Throw unimplemented).
Proof.
  intros Hds Hobs Hd Hid Hbefore.
  pose proof (find_device_first (fun d => strict_eq (id d) deviceId) w
                before after r d Hds Hd Hid Hbefore) as Hfind.
  assert (Hne : exists o obs, observers (home w) = o :: obs).
  { rewrite Hobs, Hds. destruct before; simpl; eauto. }
  destruct Hne as (o & obs & Ho).
  split.
  - unfold SmartHomeSystem.turnOn, bind. rewrite Hfind.
    unfold turnOn, bind. rewrite (deref_Some _ _ _ Hd).
    unfold SmartDevice.turnOn, modify. rewrite notify_eq. simpl.
    now rewrite Ho.
  - unfold SmartHomeSystem.turnOff, bind. rewrite Hfind.
    unfold turnOff, bind. rewrite (deref_Some _ _ _ Hd).
    unfold SmartDevice.turnOff, modify. rewrite notify_eq. simpl.
    now rewrite Ho.
Qed.

Lemma switching_a_registered_device_throws_witness :
  let w := guarded (example_usage ++ [OnHub (CallAddDevice "light" (IdNum 3))]) fresh in
  let w' := fst (SmartHomeSystem.turnOn (IdNum 3) w) in
  snd (SmartHomeSystem.turnOn (IdNum 3) w) = Throw unimplemented
  /\ option_map status (heap w' !! 2) = Some "on"
  /\ option_map status (heap w' !! 3) = Some "off".
Proof.
  intros w w'. subst w'.
  destruct (switching_a_registered_device_throws (IdNum 3) w [0; 1] [3] 2
              (DoorLock.constructor (IdNum 3)) eq_refl eq_refl eq_refl eq_refl)
    as [Hon _].
  - intros r' d' [<-|[<-|[]]] Hd'; vm_compute in Hd'; injection Hd' as <-;
      reflexivity.
  - rewrite Hon. repeat split.
Defined.



(** X14: [turnOff] and [setSchedule] on an id that no registered device has
    do nothing and raise nothing: the world is unchanged, no task is
    recorded, no notification is sent. *)
Theorem turnOff_setSchedule_unknown_id
    (deviceId : JsId) (tm cmd : string) (w : World) :
  (forall r d, In r (devices (home w)) -> heap w !! r = Some d ->
               strict_eq (id d) deviceId = false) ->
  SmartHomeSystem.turnOff deviceId w = (w, Normal tt)
  /\ SmartHomeSystem.setSchedule deviceId tm cmd w = (w, Normal tt).
Proof.
  intros H. unfold SmartHomeSystem.turnOff, SmartHomeSystem.setSchedule, bind.
  now rewrite (find_device_none _ w H).
Qed.

Lemma turnOff_setSchedule_unknown_id_witness :
  SmartHomeSystem.turnOff (IdStr "1") (guarded example_usage fresh)
  = (guarded example_usage fresh, Normal tt)
  /\ SmartHomeSystem.setSchedule (IdStr "1") "06:00" "Turn On"
       (guarded example_usage fresh)
     = (guarded example_usage fresh, Normal tt).
Proof.
  apply (turnOff_setSchedule_unknown_id (IdStr "1") "06:00" "Turn On"
           (guarded example_usage fresh)).
  intros r d Hin Hd. simpl in Hin.
  destruct Hin as [<-|[<-|[<-|[]]]]; vm_compute in Hd;
    injection Hd as <-; reflexivity.
Defined.

Lemma strict_eq_refl (x : JsId) : strict_eq x x = true.
Proof. destruct x; simpl; [apply Z.eqb_refl | apply String.eqb_refl]. Qed.

Lemma addDevice_new_object (type : string) (x : JsId) (w : World) :
  snd (SmartHomeSystem.addDevice type x w) = Normal tt ->
  exists d, id d = x
            /\ heap (fst (SmartHomeSystem.addDevice type x w)) = heap w ++ [d]
            /\ home (fst (SmartHomeSystem.addDevice type x w))
               = with_observers (fun obs => obs ++ [length (heap w)])
                   (with_devices (fun ds => ds ++ [length (heap w)]) (home w)).
Proof.
  unfold SmartHomeSystem.addDevice, SmartDeviceFactory.createDevice, bind.
  destruct (String.eqb type "light"); simpl;
    [intros _; exists (Light.constructor x); repeat split|].
  destruct (String.eqb type "thermostat"); simpl;
    [intros _; exists (Thermostat.constructor x 70); repeat split|].
  destruct (String.eqb type "door"); simpl;
    [intros _; exists (DoorLock.constructor x); repeat split|].
  discriminate.
Qed.

(** X15: a device registered under an id that is not yet in use is the one
    later calls with that id reach: after a successful [addDevice] in a
    reachable world, [setSchedule] with the new id returns normally and
    records its task against the new object. *)
Theorem added_device_is_found
    (type : string) (x : JsId) (tm cmd : string) (w : World) :
  reachable w ->
  snd (SmartHomeSystem.addDevice type x w) = Normal tt ->
  Forall (fun d => strict_eq (id d) x = false) (heap w) ->
  let w1 := fst (SmartHomeSystem.addDevice type x w) in
  snd (SmartHomeSystem.setSchedule x tm cmd w1) = Normal tt
  /\ scheduledTasks (scheduler (home (fst (SmartHomeSystem.setSchedule x tm cmd w1))))
     = scheduledTasks (scheduler (home w))
       ++ [{| device := length (heap w); time := tm; command := cmd |}].
Proof.
  intros Hw Hok Hfresh w1.
  destruct (reachable_references w Hw) as (Hds & _ & _).
  destruct (addDevice_new_object type x w Hok) as (d & Hid & Hh & Hm).
  fold w1 in Hh, Hm.
  assert (Hnew : heap w1 !! length (heap w) = Some d).
  { rewrite Hh. rewrite lookup_app_r by lia. now rewrite Nat.sub_diag. }
  assert (Hfind : find_device (fun d => strict_eq (id d) x) w1
                  = (w1, Normal (Some (length (heap w))))).
  { apply (find_device_first _ w1 (devices (home w)) [] (length (heap w)) d).
    - now rewrite Hm.
    - exact Hnew.
    - rewrite Hid. apply strict_eq_refl.
    - intros r' d' Hin Hd'. rewrite Hds in Hin. apply in_seq in Hin.
      rewrite Hh in Hd'. unfold ref in *.
      rewrite lookup_app_l in Hd' by lia.
      rewrite Forall_forall in Hfresh. apply Hfresh.
      eapply list_elem_of_lookup_2. exact Hd'. }
  unfold SmartHomeSystem.setSchedule, bind. rewrite Hfind.
  unfold Scheduler.setSchedule, bind, modify.
  rewrite (deref_Some (length (heap w)) d) by exact Hnew.
  simpl. now rewrite Hm.
Qed.

Lemma added_device_is_found_witness :
  let w := guarded example_usage fresh in
  let w1 := fst (SmartHomeSystem.addDevice "light" (IdNum 4) w) in
  snd (SmartHomeSystem.setSchedule (IdNum 4) "22:00" "Turn Off" w1) = Normal tt
  /\ scheduledTasks (scheduler (home (fst (SmartHomeSystem.setSchedule
                                             (IdNum 4) "22:00" "Turn Off" w1))))
     = scheduledTasks (scheduler (home w))
       ++ [{| device := 3; time := "22:00"; command := "Turn Off" |}].
Proof.
  apply (added_device_is_found "light" (IdNum 4) "22:00" "Turn Off"
           (guarded example_usage fresh)).
  - exists example_usage. reflexivity.
  - reflexivity.
  - repeat constructor.
Defined.

(** ** checkTriggers on any world *)

Lemma filter_sublist {A} (p : A -> bool) (l : list A) :
  List.filter p l `sublist_of` l.
Proof.
  induction l as [|x l IH]; simpl; [constructor|].
  destruct (p x); now constructor.
Qed.

(** X16: [SmartHomeSystem.checkTriggers] never throws and never executes an
    action: on every world it returns normally, the objects, arrays, tasks
    and triggers are exactly as before, and all it adds is one "Trigger
    met" console line for each rule of some sub-sequence of the triggers,
    in their order. *)
Theorem checkTriggers_only_logs (w : World) :
  exists fired,
    fired `sublist_of` triggers (automation (home w))
    /\ SmartHomeSystem.checkTriggers w
       = (with_events
            (fun es => es ++ map (fun t => ConsoleLog (Automation.trigger_line t))
                                 fired) w,
          Normal tt).
Proof.
  unfold SmartHomeSystem.checkTriggers, find_device, bind, gets.
  destruct (List.find _ _) as [r|] eqn:F.
  - apply find_device_Some in F as [_ [d [Hd _]]].
    exists (List.filter (Automation.trigger_met d) (triggers (automation (home w)))).
    split; [apply filter_sublist|]. now apply checkTriggers_eq.
  - exists []. split; [apply sublist_nil_l|]. simpl.
    now rewrite with_events_nil.
Qed.

(** ** Through the hub alone *)

Lemma hub_call_keeps_defaults (c : HubCall) (w : World) :
  Forall (fun d => status d <> "unlocked"
                   /\ (class d = Thermostat -> temperature d = Some 70%Z))
         (heap w) ->
  Forall (fun d => status d <> "unlocked"
                   /\ (class d = Thermostat -> temperature d = Some 70%Z))
         (heap (fst (call (OnHub c) w))).
Proof.
  intros Hw.
  destruct (call_outcome (OnHub c) w)
    as [es Hh Hm He | d0 Hc Hh Hm He | r0 d0 s es Hd Hs Hcl Hh Hm He
       | r0 d0 t es Hd Hcl Hc Hh Hm He | r0 d0 tm cmd es Hin Hd Hh Hm He
       | cnd act es Hh Hm He];
    rewrite Hh; auto; try discriminate.
  - apply Forall_app. split; [exact Hw|]. repeat constructor.
    + destruct Hc; simpl; discriminate.
    + destruct Hc; simpl; auto; discriminate.
  - apply Forall_alter; [exact Hw|]. intros d _ [Hst Ht]. simpl. split; [|exact Ht].
    destruct c; simpl in Hs; inversion Hs; discriminate.
Qed.

(** X17: the hub's own calls never unlock a door and never change a
    temperature: in every world reached through addDevice, turnOn, turnOff,
    setSchedule, addTrigger, checkTriggers and getStatusReport alone, no
    device has the status "unlocked" and every thermostat is at the
    constructor's 70 degrees. *)
Theorem hub_alone_never_unlocks_nor_heats (w : World) :
  hub_reachable w ->
  Forall (fun d => status d <> "unlocked"
                   /\ (class d = Thermostat -> temperature d = Some 70%Z))
         (heap w).
Proof.
  intros [cs ->].
  apply (guarded_invariant
           (fun w => Forall (fun d => status d <> "unlocked"
                                      /\ (class d = Thermostat ->
                                          temperature d = Some 70%Z)) (heap w))
           (fun c => exists h, c = OnHub h)).
  - intros c w [h ->]. apply hub_call_keeps_defaults.
  - apply Forall_forall. intros c Hc.
    apply list_elem_of_In, in_map_iff in Hc as [h [<- _]]. eauto.
  - constructor.
Qed.

Lemma hub_alone_never_unlocks_nor_heats_witness :
  Forall (fun d => status d <> "unlocked"
                   /\ (class d = Thermostat -> temperature d = Some 70%Z))
         (heap (guarded example_usage fresh)).
Proof.
  apply (hub_alone_never_unlocks_nor_heats (guarded example_usage fresh)).
  exists [ CallAddDevice "light" (IdNum 1); CallAddDevice "thermostat" (IdNum 2);
           CallAddDevice "door" (IdNum 3); CallTurnOn (IdNum 1);
           CallSetSchedule (IdNum 2) "06:00" "Turn On";
           CallAddTrigger "temperature > 75" "turnOff(1)"; CallCheckTriggers ].
  reflexivity.
Defined.

(** ** split and join *)

(** X18: joining the pieces of [s.split(sep)] with the separator gives [s]
    back, for every string and every one-character separator; in
    particular no character of a condition is lost by the split. *)
Theorem join_str_split (sep : ascii) (s : string) :
  join (String sep "") (str_split sep s) = s.
Proof.
  unfold join. induction s as [|c s IH]; simpl; [reflexivity|].
  destruct (Ascii.eqb_spec c sep) as [->|Hne].
  - destruct (str_split sep s) as [|p ps] eqn:E.
    + now destruct (str_split_not_nil sep s).
    + simpl in *. now rewrite IH.
  - destruct (str_split sep s) as [|p ps] eqn:E.
    + now destruct (str_split_not_nil sep s).
    + destruct ps as [|q ps]; simpl in *; now rewrite IH.
Qed.

(** ** parseInt reads back what number printing writes *)

Lemma parse_digits_step (R : Z) (acc : option Z) (c : ascii) (s : string) (v : Z) :
  radix_digit R c = Some v ->
  parse_digits R acc (String c s)
  = parse_digits R (Some (R * default 0%Z acc + v)%Z) s.
Proof. intros H. simpl. now rewrite H. Qed.

Lemma parse_digits_acc (d : Decimal.uint) :
  forall acc : positive,
    parse_digits 10 (Some (Zpos acc)) (NilEmpty.string_of_uint d)
    = Some (Zpos (Pos.of_uint_acc d acc)).
Proof.
  induction d; intros acc; [reflexivity|..];
    cbn [NilEmpty.string_of_uint Pos.of_uint_acc];
    erewrite parse_digits_step by reflexivity;
    cbn [default]; rewrite <- IHd; do 2 f_equal;
    unfold Datatypes.id;
    match goal with
    | |- context [Z.of_nat (nat_of_ascii ?c)] =>
        let v := eval vm_compute in (Z.of_nat (nat_of_ascii c)) in
        change (Z.of_nat (nat_of_ascii c)) with v
    end; lia.
Qed.

Lemma parse_digits_zero (d : Decimal.uint) :
  parse_digits 10 (Some 0%Z) (NilEmpty.string_of_uint d)
  = Some (Z.of_N (Pos.of_uint d)).
Proof.
  induction d; [reflexivity|..];
    cbn [NilEmpty.string_of_uint Pos.of_uint];
    erewrite parse_digits_step by reflexivity; cbn [default];
    [exact IHd | ..];
    cbn [Z.of_N]; rewrite <- parse_digits_acc; do 2 f_equal.
Qed.

Lemma parse_digits_start (d : Decimal.uint) :
  d <> Decimal.Nil ->
  parse_digits 10 None (NilEmpty.string_of_uint d)
  = parse_digits 10 (Some 0%Z) (NilEmpty.string_of_uint d).
Proof. destruct d; [congruence|..]; reflexivity. Qed.

Lemma all_digits_string_of_uint (d : Decimal.uint) :
  all_digits (NilEmpty.string_of_uint d) = true.
Proof. induction d; simpl; auto. Qed.

(** On a string of decimal digits [parseInt] is the digit reader: there is
    no white space to trim, no sign and no "0x" prefix. *)
Lemma parseInt_all_digits (c : ascii) (s : string) :
  all_digits (String c s) = true ->
  parseInt (String c s) = option_map (Z.mul 1) (parse_digits 10 None (String c s))
  /\ parseInt (String "-" (String c s))
     = option_map (Z.mul (-1)) (parse_digits 10 None (String c s)).
Proof.
  intros H. by_first_character c.
  destruct s as [|c2 s]; [split; reflexivity|].
  cbn [all_digits] in H. apply andb_prop in H as [_ H].
  by_first_character c2.
Qed.

Lemma parseInt_positive (p : positive) :
  parseInt (NilEmpty.string_of_uint (Pos.to_uint p)) = Some (Zpos p)
  /\ parseInt (String "-" (NilEmpty.string_of_uint (Pos.to_uint p)))
     = Some (Zneg p).
Proof.
  pose proof (DecimalPos.Unsigned.to_uint_nonnil p) as Hnil.
  pose proof (all_digits_string_of_uint (Pos.to_uint p)) as Hdig.
  pose proof (parse_digits_start _ Hnil) as Hstart.
  rewrite parse_digits_zero, DecimalPos.Unsigned.of_to in Hstart.
  destruct (NilEmpty.string_of_uint (Pos.to_uint p)) as [|c s] eqn:E.
  - destruct (Pos.to_uint p); try congruence; discriminate.
  - destruct (parseInt_all_digits c s Hdig) as [H1 H2].
    rewrite H1, H2, Hstart. split; reflexivity.
Qed.

Lemma number_to_string_positive (p : positive) :
  number_to_string (Zpos p) = NilEmpty.string_of_uint (Pos.to_uint p)
  /\ number_to_string (Zneg p)
     = String "-" (NilEmpty.string_of_uint (Pos.to_uint p)).
Proof.
  unfold number_to_string, NilZero.string_of_int, NilZero.string_of_uint. simpl.
  pose proof (DecimalPos.Unsigned.to_uint_nonnil p) as Hnil.
  destruct (Pos.to_uint p); try congruence; split; reflexivity.
Qed.

Lemma parseInt_number (n : Z) : parseInt (number_to_string n) = Some n.
Proof.
  destruct n as [|p|p]; [reflexivity|..];
    destruct (number_to_string_positive p) as [Hp Hn];
    destruct (parseInt_positive p) as [H1 H2]; congruence.
Qed.

(** ** Rules of the form "temperature > N" *)

Lemma all_digits_no_space (s : string) :
  all_digits s = true -> has_char " " s = false.
Proof.
  induction s as [|c s IH]; [reflexivity|]. intros H.
  cbn [all_digits] in H. apply andb_prop in H as [Hc Hs].
  cbn [has_char]. rewrite (IH Hs).
  destruct c as [[] [] [] [] [] [] [] []]; try discriminate; reflexivity.
Qed.

Lemma number_to_string_no_space (n : Z) :
  has_char " " (number_to_string n) = false.
Proof.
  destruct n as [|p|p]; [reflexivity|..];
    destruct (number_to_string_positive p) as [Hp Hn].
  - rewrite Hp. apply all_digits_no_space, all_digits_string_of_uint.
  - rewrite Hn. cbn [has_char]. simpl Ascii.eqb.
    apply all_digits_no_space, all_digits_string_of_uint.
Qed.

Lemma str_split_temperature_rule (n : Z) :
  str_split " " ("temperature > " ++ number_to_string n)%string
  = ["temperature"; ">"; number_to_string n].
Proof.
  change ("temperature > " ++ number_to_string n)%string
    with ("temperature" ++ String " " (">" ++ String " " (number_to_string n)))%string.
  rewrite str_split_app by reflexivity.
  rewrite str_split_app by reflexivity.
  now rewrite str_split_single by apply number_to_string_no_space.
Qed.

(** X21: [checkTriggers] sees the temperature a program has just set: when
    the first registered device typed "Thermostat" is given a temperature by
    [setTemperature], the next [SmartHomeSystem.checkTriggers] returns
    normally and writes the lines of the rules met at the new temperature,
    whatever the temperature was before. *)
Theorem setTemperature_then_checkTriggers
    (w : World) (before after : list ref) (r : ref) (d : SmartDevice) (t : Z) :
  devices (home w) = before ++ r :: after ->
  heap w !! r = Some d ->
  class d = Thermostat ->
  type d = "Thermostat" ->
  (forall r' d', In r' before -> heap w !! r' = Some d' -> type d' <> "Thermostat") ->
  let w1 := fst (setTemperature r t w) in
  SmartHomeSystem.checkTriggers w1
  = (with_events
       (fun es => es ++ fired_lines (set_temperature t d)
                          (triggers (automation (home w)))) w1,
     Normal tt).
Proof.
  intros Hds Hd Hc Hty Hbefore w1.
  assert (Hnew : alter (set_temperature t) r (heap w) !! r
                 = Some (set_temperature t d)).
  { unfold ref in *. rewrite list_lookup_alter_eq, Hd. reflexivity. }
  assert (Hw1 : heap w1 = alter (set_temperature t) r (heap w)
                /\ home w1 = home w).
  { subst w1. unfold_methods. unfold ref in *. rewrite Hd. simpl. rewrite Hc.
    simpl. rewrite Hnew. split; reflexivity. }
  destruct Hw1 as [Hh Hm].
  assert (Hlive : heap w1 !! r = Some (set_temperature t d)) by now rewrite Hh.
  assert (Hfind : find_device (fun d => String.eqb (type d) "Thermostat") w1
                  = (w1, Normal (Some r))).
  { apply (find_device_first _ w1 before after r (set_temperature t d)).
    - now rewrite Hm.
    - exact Hlive.
    - simpl. now apply String.eqb_eq.
    - intros r' d' Hin Hd'. apply String.eqb_neq.
      rewrite Hh in Hd'. unfold ref in *.
      destruct (decide (r = r')) as [<-|Hne].
      + rewrite Hnew in Hd'. injection Hd' as <-. simpl.
        exfalso. exact (Hbefore r d Hin Hd Hty).
      + rewrite list_lookup_alter_ne in Hd' by exact Hne. eauto. }
  unfold SmartHomeSystem.checkTriggers, bind. rewrite Hfind.
  rewrite (checkTriggers_eq r (set_temperature t d) w1 Hlive). now rewrite Hm.
Qed.

Lemma setTemperature_then_checkTriggers_witness :
  let w := guarded example_usage fresh in
  let w1 := fst (setTemperature 1 80 w) in
  events (fst (SmartHomeSystem.checkTriggers w1))
  = events w1 ++ [ConsoleLog "Trigger met: temperature > 75. Executing: turnOff(1)"].
Proof.
  intros w w1. subst w1.
  rewrite (setTemperature_then_checkTriggers w [0] [2] 1
             (Thermostat.constructor (IdNum 2) 70) 80
             eq_refl eq_refl eq_refl eq_refl).
  - reflexivity.
  - intros r' d' [<-|[]] Hd'. vm_compute in Hd'. injection Hd' as <-.
    discriminate.
Defined.

(** ** Which condition texts can fire *)

Lemma str_split_inv (sep : ascii) (s : string) :
  forall p ps,
    str_split sep s = p :: ps ->
    (ps = [] /\ s = p)
    \/ (exists s', s = (p ++ String sep s')%string /\ str_split sep s' = ps).
Proof.
  induction s as [|c s IH]; intros p ps H; simpl in H.
  - injection H as <- <-. now left.
  - destruct (Ascii.eqb_spec c sep) as [->|Hne].
    + injection H as <- <-. right. now exists s.
    + destruct (str_split sep s) as [|p' ps'] eqn:E.
      * now destruct (str_split_not_nil sep s).
      * injection H as <- <-.
        destruct (IH p' ps' eq_refl) as [[-> ->]|[s' [-> Hs']]].
        -- now left.
        -- right. now exists s'.
Qed.

Lemma append_empty_r (s : string) : (s ++ "")%string = s.
Proof. induction s as [|c s IH]; simpl; [reflexivity|]. now rewrite IH. Qed.

Lemma token_is_true (v : option string) (lit : string) :
  token_is v lit = true -> v = Some lit.
Proof.
  destruct v as [s|]; simpl; [|discriminate].
  intros H. apply String.eqb_eq in H. now subst.
Qed.

Lemma js_gt_true (a b : option Z) :
  js_gt a b = true -> exists t n, a = Some t /\ b = Some n /\ (n < t)%Z.
Proof.
  destruct a as [t|], b as [n|]; simpl; try discriminate.
  intros H. apply Z.ltb_lt in H. eauto.
Qed.

(** X22: a rule is met exactly when its condition text is
    "temperature > V", alone or followed by a space and anything, where V
    holds no space, [parseInt] reads V as a number, and the object's
    temperature is greater than that number.  No other property, operator
    or spacing ever fires. *)
Theorem trigger_met_iff_text (d : SmartDevice) (rule : Trigger) :
  Automation.trigger_met d rule = true
  <-> exists v rest n t,
        condition rule = ("temperature > " ++ v ++ rest)%string
        /\ has_char " " v = false
        /\ (rest = "" \/ exists rest', rest = String " " rest')
        /\ parseInt v = Some n
        /\ temperature d = Some t
        /\ (n < t)%Z.
Proof.
  unfold Automation.trigger_met. split.
  - intros H. apply andb_prop in H as [H Hgt]. apply andb_prop in H as [Hp Ho].
    apply token_is_true in Hp, Ho.
    pose proof (str_split_pieces " " (condition rule)) as Hps.
    destruct (str_split " " (condition rule)) as [|p [|o ps]] eqn:E;
      try discriminate.
    injection Hp as ->. injection Ho as ->.
    apply js_gt_true in Hgt as (t & n & Ht & Hn & Hlt).
    destruct ps as [|v ps]; [discriminate|]. cbn in Hn.
    inversion Hps as [|? ? _ Hps1]; subst.
    inversion Hps1 as [|? ? _ Hps2]; subst.
    inversion Hps2 as [|? ? Hv _]; subst.
    destruct (str_split_inv _ _ _ _ E) as [[? _]|(s1 & Hc & E1)]; [discriminate|].
    destruct (str_split_inv _ _ _ _ E1) as [[? _]|(s2 & -> & E2)]; [discriminate|].
    destruct (str_split_inv _ _ _ _ E2) as [[-> ->]|(s3 & -> & E3)].
    + exists v, "", n, t. rewrite Hc, append_empty_r. repeat split; auto.
    + exists v, (String " " s3), n, t. rewrite Hc. repeat split; eauto.
  - intros (v & rest & n & t & Hc & Hv & Hrest & Hn & Ht & Hlt).
    assert (Hsplit : exists ps, str_split " " (condition rule)
                                = "temperature" :: ">" :: v :: ps).
    { rewrite Hc.
      change ("temperature > " ++ v ++ rest)%string
        with ("temperature" ++ String " " (">" ++ String " " (v ++ rest)))%string.
      rewrite str_split_app by reflexivity.
      rewrite str_split_app by reflexivity.
      destruct Hrest as [->|[rest' ->]].
      - rewrite append_empty_r, str_split_single by exact Hv. now exists [].
      - rewrite str_split_app by exact Hv. eauto. }
    destruct Hsplit as [ps ->]. cbn. rewrite Hn, Ht. simpl.
    now apply Z.ltb_lt.
Qed.

(** ** notify once a device exists *)

(** X23: in every reachable world that holds at least one device,
    [Subject.notify] throws the "should be implemented" string whatever the
    event: the first observer is a device, and no device class defines
    [update].  Objects, arrays, tasks and triggers are left as they are. *)
Theorem notify_throws_once_a_device_exists (data : Notification) (w : World) :
  reachable w ->
  heap w <> [] ->
  snd (Subject.notify data w) = Throw unimplemented
  /\ heap (fst (Subject.notify data w)) = heap w
  /\ home (fst (Subject.notify data w)) = home w.
Proof.
  intros Hw Hne. destruct (reachable_references w Hw) as (Hds & Hobs & _).
  rewrite notify_eq. simpl. rewrite Hobs, Hds.
  destruct (heap w); [congruence|]. repeat split.
Qed.

Lemma notify_throws_once_a_device_exists_witness :
  snd (Subject.notify {| notified_action := "turnOff"; deviceId := IdNum 2 |}
         (guarded example_usage fresh)) = Throw unimplemented.
Proof.
  apply (notify_throws_once_a_device_exists
           {| notified_action := "turnOff"; deviceId := IdNum 2 |}
           (guarded example_usage fresh)).
  - exists example_usage. reflexivity.
  - discriminate.
Defined.

(** ** The schedule keeps the order of the calls *)

Lemma find_existsb {A} (p : A -> bool) (l : list A) :
  existsb p l = match List.find p l with Some _ => true | None => false end.
Proof.
  induction l as [|x l IH]; simpl; [reflexivity|].
  destruct (p x); [reflexivity | exact IH].
Qed.

Lemma setSchedule_step (q : schedule_request) (w : World) :
  let w' := fst (call (request_call q) w) in
  heap w' = heap w
  /\ devices (home w') = devices (home w)
  /\ map (fun t => (time t, command t)) (scheduledTasks (scheduler (home w')))
     = map (fun t => (time t, command t)) (scheduledTasks (scheduler (home w)))
       ++ (if is_registered (fst (fst q)) w then [(snd (fst q), snd q)] else []).
Proof.
  destruct q as [[x tm] cmd]. unfold is_registered. rewrite find_existsb.
  unfold request_call. simpl. unfold_methods.
  destruct (List.find _ _) as [r|] eqn:F; simpl.
  - apply find_device_Some in F as [_ [d [Hd _]]]. unfold ref in *.
    rewrite Hd. simpl. rewrite map_app. repeat split.
  - rewrite app_nil_r. repeat split.
Qed.

(** X24: the scheduler keeps what it is given in the order it is given:
    after any series of [setSchedule] calls the (time, command) pairs of the
    task list are the ones there were, followed by those of the calls whose
    id is registered, in call order.  Calls with an unknown id leave no
    trace; equal requests are all kept. *)
Theorem schedule_keeps_call_order (qs : list schedule_request) (w : World) :
  map (fun t => (time t, command t))
      (scheduledTasks (scheduler (home (guarded (map request_call qs) w))))
  = map (fun t => (time t, command t)) (scheduledTasks (scheduler (home w)))
    ++ map (fun q => (snd (fst q), snd q))
           (List.filter (fun q => is_registered (fst (fst q)) w) qs).
Proof.
  revert w. induction qs as [|q qs IH]; intros w.
  - simpl. now rewrite app_nil_r.
  - cbn [map guarded List.filter].
    destruct (setSchedule_step q w) as (Hh & Hd & Ht).
    rewrite IH, Ht, <- app_assoc. f_equal.
    assert (Hreg : forall x, is_registered x (fst (call (request_call q) w))
                             = is_registered x w).
    { intros x. unfold is_registered. now rewrite Hh, Hd. }
    rewrite (List.filter_ext _ _ (fun q' => Hreg (fst (fst q')))).
    destruct (is_registered (fst (fst q)) w); reflexivity.
Qed.

(** * Door locks, object by object *)

Lemma assignment_live (c : Call) (w : World) (r : ref) (s : string) :
  assignment c w = Some (r, s) -> is_Some (heap w !! r).
Proof.
  destruct c as [[]|this []]; simpl; try discriminate.
  1,2: destruct (List.find _ _) as [r0|] eqn:F; simpl; [|discriminate];
       intros H; injection H as <- <-;
       apply find_device_Some in F as [_ [d [Hd _]]]; eauto.
  1,2,5,6: destruct (heap w !! this) as [d|] eqn:E; simpl; [|discriminate];
           intros H; injection H as <- <-; unfold ref in *; rewrite E; eauto.
  all: destruct (heap w !! this) as [d|] eqn:E; simpl; [|discriminate];
       destruct (class d); simpl; try discriminate;
       intros H; injection H as <- <-; unfold ref in *; rewrite E; eauto.
Qed.

Lemma assignment_status (c : Call) (w : World) (r : ref) (s : string) :
  assignment c w = Some (r, s) ->
  s = "on" \/ s = "off" \/ s = "locked" \/ s = "unlocked".
Proof.
  destruct c as [[]|this []]; simpl; try discriminate;
    match goal with
    | |- option_map _ ?o = _ -> _ => destruct o; simpl; [|discriminate]
    end;
    intros H; injection H as <- <-; auto.
Qed.

Lemma lookup_alter_status (h : list SmartDevice) (r0 r : nat) (s : string)
    (d : SmartDevice) :
  h !! r = Some d ->
  exists d', alter (set_status s) r0 h !! r = Some d'
             /\ class d' = class d
             /\ status d' = if Nat.eqb r0 r then s else status d.
Proof.
  intros Hd. destruct (Nat.eqb_spec r0 r) as [->|Hne].
  - rewrite list_lookup_alter_eq, Hd. simpl. eauto.
  - rewrite list_lookup_alter_ne by exact Hne. eauto.
Qed.

Lemma lookup_alter_temperature (h : list SmartDevice) (r0 r : nat) (t : Z)
    (d : SmartDevice) :
  h !! r = Some d ->
  exists d', alter (set_temperature t) r0 h !! r = Some d'
             /\ class d' = class d /\ status d' = status d.
Proof.
  intros Hd. destruct (decide (r0 = r)) as [->|Hne].
  - rewrite list_lookup_alter_eq, Hd. simpl. eauto.
  - rewrite list_lookup_alter_ne by exact Hne. eauto.
Qed.

(** What a call leaves of an object that exists: its class, and the status
    that [status_after] tells. *)
Lemma call_status_after (c : Call) (w : World) (r : ref) (d : SmartDevice) :
  heap w !! r = Some d ->
  exists d', heap (fst (call c w)) !! r = Some d'
             /\ class d' = class d
             /\ status d' = status_after c w r (status d).
Proof.
  intros Hd. unfold status_after.
  destruct c as [c|this c]; destruct c; simpl.
  - (* addDevice *)
    unfold_methods.
    destruct (String.eqb type0 "light"); simpl;
      [exists d; split; [now apply lookup_app_l_Some | auto]|].
    destruct (String.eqb type0 "thermostat"); simpl;
      [exists d; split; [now apply lookup_app_l_Some | auto]|].
    destruct (String.eqb type0 "door"); simpl;
      [exists d; split; [now apply lookup_app_l_Some | auto]|].
    same_status Hd.
  - (* turnOn *)
    unfold_methods.
    destruct (List.find _ _) as [r0|] eqn:F; simpl; [|same_status Hd].
    apply find_device_Some in F as [_ [d0 [Hd0 _]]]. rewrite Hd0. simpl.
    rewrite notify_eq. simpl. destruct (observers (home w)); simpl;
      now apply lookup_alter_status.
  - (* turnOff *)
    unfold_methods.
    destruct (List.find _ _) as [r0|] eqn:F; simpl; [|same_status Hd].
    apply find_device_Some in F as [_ [d0 [Hd0 _]]]. rewrite Hd0. simpl.
    rewrite notify_eq. simpl. destruct (observers (home w)); simpl;
      now apply lookup_alter_status.
  - (* setSchedule *)
    unfold_methods.
    destruct (List.find _ _) as [r0|] eqn:F; simpl; [|same_status Hd].
    destruct (heap w !! r0); simpl; same_status Hd.
  - (* addTrigger *)
    unfold_methods. simpl. same_status Hd.
  - (* checkTriggers *)
    unfold SmartHomeSystem.checkTriggers, returning_undefined, find_device, bind,
      gets, ret.
    destruct (List.find _ _) as [r0|] eqn:F; simpl; [|same_status Hd].
    destruct (checkTriggers_same_objects r0 w) as [Hh _].
    destruct (Automation.checkTriggers r0 w) as [w1 [[]|e]]; simpl in *;
      rewrite Hh; same_status Hd.
  - (* getStatusReport *)
    unfold returning_string, bind, ret.
    pose proof (getStatusReport_fst w) as H.
    destruct (SmartHomeSystem.getStatusReport w) as [w1 [s|e]]; simpl in *;
      subst w1; same_status Hd.
  - (* device.turnOn *)
    unfold_methods. destruct (heap w !! this) as [d0|] eqn:E; simpl;
      [now apply lookup_alter_status | same_status Hd].
  - (* device.turnOff *)
    unfold_methods. destruct (heap w !! this) as [d0|] eqn:E; simpl;
      [now apply lookup_alter_status | same_status Hd].
  - (* device.getStatus *)
    unfold returning_string, bind, ret.
    pose proof (getStatus_fst this w) as H.
    destruct (getStatus this w) as [w1 [s|e]]; simpl in *; subst w1;
      same_status Hd.
  - (* setTemperature *)
    unfold_methods. destruct (heap w !! this) as [d0|] eqn:E; simpl;
      [|same_status Hd].
    destruct (class d0) eqn:C; simpl; try same_status Hd.
    destruct (alter (set_temperature temp) this (heap w) !! this); simpl;
      now apply lookup_alter_temperature.
  - (* lock *)
    unfold_methods. destruct (heap w !! this) as [d0|] eqn:E; simpl;
      [|same_status Hd].
    destruct (class d0) eqn:C; simpl; try same_status Hd.
    now apply lookup_alter_status.
  - (* unlock *)
    unfold_methods. destruct (heap w !! this) as [d0|] eqn:E; simpl;
      [|same_status Hd].
    destruct (class d0) eqn:C; simpl; try same_status Hd.
    now apply lookup_alter_status.
  - (* proxy.turnOn *)
    unfold_methods. simpl. destruct (heap w !! this) as [d0|] eqn:E; simpl;
      rewrite ?E; simpl; [now apply lookup_alter_status | same_status Hd].
  - (* proxy.turnOff *)
    unfold_methods. simpl. destruct (heap w !! this) as [d0|] eqn:E; simpl;
      rewrite ?E; simpl; [now apply lookup_alter_status | same_status Hd].
  - (* proxy.getStatus *)
    unfold returning_string, DeviceProxy.getStatus, bind, ret.
    pose proof (getStatus_fst this w) as H.
    destruct (getStatus this w) as [w1 [s|e]]; simpl in *; subst w1;
      same_status Hd.
Qed.

Lemma call_created (c : Call) (w : World) (r : ref) (d' : SmartDevice) :
  heap w !! r = None ->
  heap (fst (call c w)) !! r = Some d' ->
  constructed d'.
Proof.
  intros Hnone Hnew.
  destruct (call_outcome c w)
    as [es Hh Hm He | d0 Hc Hh Hm He | r0 d0 s es Hd Hs Hcl Hh Hm He
       | r0 d0 t es Hd Hcl Hc Hh Hm He | r0 d0 tm cmd es Hin Hd Hh Hm He
       | cnd act es Hh Hm He];
    rewrite Hh in Hnew; unfold ref in *; try congruence.
  - apply lookup_ge_None in Hnone.
    rewrite lookup_app_r in Hnew by exact Hnone.
    destruct (r - length (heap w)) as [|k]; simpl in Hnew; [|discriminate].
    now injection Hnew as <-.
  - rewrite list_lookup_alter in Hnew.
    destruct (decide (r0 = r)) as [->|]; [rewrite Hnone in Hnew|]; simpl in *;
      congruence.
  - rewrite list_lookup_alter in Hnew.
    destruct (decide (r0 = r)) as [->|]; [rewrite Hnone in Hnew|]; simpl in *;
      congruence.
Qed.

Lemma call_keeps_absent (c : Call) (w : World) (r : ref) :
  heap (fst (call c w)) !! r = None -> heap w !! r = None.
Proof.
  intros H. destruct (heap w !! r) as [d|] eqn:E; [|reflexivity].
  destruct (call_keeps_identity c w r d E) as (d' & Hd' & _). congruence.
Qed.

Lemma assignment_misses_absent (c : Call) (w : World) (r : ref)
    (last : option string) :
  heap w !! r = None ->
  match assignment c w with
  | Some (r', s) => if Nat.eqb r' r then Some s else last
  | None => last
  end = last.
Proof.
  intros Hnone. destruct (assignment c w) as [[r' s]|] eqn:A; [|reflexivity].
  destruct (Nat.eqb_spec r' r) as [->|]; [|reflexivity].
  apply assignment_live in A as [d Hd]. unfold ref in *. congruence.
Qed.

(** Along any run, the status of a door lock is the one last assigned to
    it, and "locked" as long as none was. *)
Lemma door_status_tracks (r : ref) (cs : list Call) :
  forall (w : World) (last : option string),
    (heap w !! r = None -> last = None) ->
    (forall d, heap w !! r = Some d -> class d = DoorLock ->
               status d = default "locked" last) ->
    forall d, heap (guarded cs w) !! r = Some d -> class d = DoorLock ->
              status d = default "locked" (last_assigned r cs w last).
Proof.
  induction cs as [|c cs IH]; intros w last Habsent Hlive d Hd Hc; simpl in *.
  - now apply Hlive.
  - apply (IH (fst (call c w))
              (match assignment c w with
               | Some (r', s) => if Nat.eqb r' r then Some s else last
               | None => last
               end)); try assumption.
    + intros Hnone. apply call_keeps_absent in Hnone.
      rewrite assignment_misses_absent by exact Hnone. now apply Habsent.
    + intros d1 Hd1 Hc1.
      destruct (heap w !! r) as [d0|] eqn:E.
      * destruct (call_status_after c w r d0 E) as (d' & Hd' & Hcl & Hst).
        assert (d' = d1) as -> by congruence.
        rewrite Hst. unfold status_after.
        rewrite (Hlive d0 eq_refl) by congruence.
        destruct (assignment c w) as [[r' s]|]; [|reflexivity].
        destruct (Nat.eqb r' r); reflexivity.
      * rewrite assignment_misses_absent by exact E.
        rewrite (Habsent eq_refl). simpl.
        destruct (call_created c w r d1 E Hd1); simpl in *; try discriminate.
        reflexivity.
Qed.

Lemma spared_last_assigned (r : ref) (cs : list Call) :
  forall (w : World) (last : option string),
    spared r cs w = true ->
    (forall s, last = Some s -> s = "locked" \/ s = "unlocked") ->
    forall s, last_assigned r cs w last = Some s ->
              s = "locked" \/ s = "unlocked".
Proof.
  induction cs as [|c cs IH]; intros w last Hsp Hlast s Hs; simpl in *.
  - now apply Hlast.
  - apply andb_prop in Hsp as [Hc Hsp]. apply negb_true_iff in Hc.
    eapply IH; [exact Hsp | | exact Hs].
    unfold switch_lands_on in Hc.
    destruct (assignment c w) as [[r' s']|] eqn:A; [|exact Hlast].
    destruct (Nat.eqb r' r); [|exact Hlast].
    intros s0 H0. injection H0 as <-. simpl in Hc.
    destruct (assignment_status c w r' s' A) as [->|[->|[->| ->]]];
      auto; discriminate.
Qed.

(** C3, amended: a door lock is created with the status "locked".  After
    any sequence of hub and device calls the status of a door lock is one
    of "locked", "unlocked", "on" and "off": it is the status assigned by
    the last lock, unlock, turnOn or turnOff that reached this very door
    lock, and "locked" if none did.  So a door lock stays in
    {"locked", "unlocked"} as long as no turnOn and no turnOff reaches it
    (the hub's with its id as first match, the device's or the proxy's on
    it); calls that switch other devices do not matter. *)
Theorem C3_door_status_amended
    (id : JsId) (w0 : World) (cs : list Call) (r : ref) (d : SmartDevice) :
  (let w1 := fst (SmartHomeSystem.addDevice "door" id w0) in
   heap w1 = heap w0 ++ [DoorLock.constructor id]
   /\ devices (home w1) = devices (home w0) ++ [length (heap w0)]
   /\ status (DoorLock.constructor id) = "locked")
  /\ Forall (door_status_in ["locked"; "unlocked"; "on"; "off"])
            (heap (guarded cs fresh))
  /\ (heap (guarded cs fresh) !! r = Some d ->
      class d = DoorLock ->
      status d = default "locked" (last_assigned r cs fresh None)
      /\ (spared r cs fresh = true ->
          status d = "locked" \/ status d = "unlocked")).
Proof.
  split; [|split].
  - repeat split.
  - apply reachable_door_status; [simpl; auto|].
    apply Forall_forall. intros c _ s Hs.
    destruct (written_status_cases c s Hs) as [-> | [-> | [-> | ->]]]; simpl; auto.
  - intros Hd Hc.
    assert (Hst : status d = default "locked" (last_assigned r cs fresh None)).
    { apply (door_status_tracks r cs fresh None); auto. discriminate. }
    split; [exact Hst|]. intros Hsp. rewrite Hst.
    destruct (last_assigned r cs fresh None) as [s|] eqn:L; simpl; [|now left].
    apply (spared_last_assigned r cs fresh None Hsp); [discriminate | exact L].
Qed.

Lemma C3_door_status_amended_witness :
  exists d, heap (guarded example_usage fresh) !! 2 = Some d
            /\ class d = DoorLock
            /\ spared 2 example_usage fresh = true
            /\ (status d = "locked" \/ status d = "unlocked").
Proof.
  exists (DoorLock.constructor (IdNum 3)).
  split; [reflexivity|]. split; [reflexivity|]. split; [reflexivity|].
  apply (C3_door_status_amended (IdNum 3) fresh example_usage 2
           (DoorLock.constructor (IdNum 3))); reflexivity.
Defined.

(** * Conditions, token by token *)

Section TokensBy.

Variable sep : ascii -> bool.
Hypothesis sep_is_white_space : forall c, sep c = true -> is_white_space c = true.

Lemma tokens_by_nil (s : string) :
  tokens_by sep s = [] -> all_white_space s = true.
Proof.
  induction s as [|c s IH]; [reflexivity|]. simpl.
  destruct (sep c) eqn:Hc.
  - intros H. now rewrite (sep_is_white_space c Hc), IH.
  - destruct s as [|c' s]; [discriminate|].
    destruct (sep c'); [discriminate|].
    destruct (tokens_by sep (String c' s)); discriminate.
Qed.

Lemma tokens_by_app (p : string) (c : ascii) (s : string) :
  p <> "" ->
  all_white_space_free p = true ->
  sep c = true ->
  tokens_by sep (p ++ String c s) = p :: tokens_by sep s.
Proof.
  intros Hne Hp Hc. induction p as [|a p IH]; [congruence|].
  cbn [all_white_space_free] in Hp. apply andb_prop in Hp as [Ha Hp].
  assert (Hsa : sep a = false).
  { destruct (sep a) eqn:E; [|reflexivity].
    rewrite (sep_is_white_space a E) in Ha. discriminate. }
  destruct p as [|b p].
  - simpl. now rewrite Hsa, Hc.
  - assert (Hsb : sep b = false).
    { cbn [all_white_space_free] in Hp. apply andb_prop in Hp as [Hb _].
      destruct (sep b) eqn:E; [|reflexivity].
      rewrite (sep_is_white_space b E) in Hb. discriminate. }
    change ((String a (String b p) ++ String c s)%string)
      with (String a (String b p ++ String c s)%string).
    cbn [tokens_by]. rewrite Hsa.
    change ((String b p ++ String c s)%string)
      with (String b (p ++ String c s)%string) at 1.
    cbv iota. rewrite Hsb.
    change (String b (p ++ String c s)%string)
      with ((String b p ++ String c s)%string).
    now rewrite IH by (auto; discriminate).
Qed.

End TokensBy.

Lemma all_white_space_app (s1 s2 : string) :
  all_white_space (s1 ++ s2) = true -> all_white_space s1 = true.
Proof.
  induction s1 as [|c s1 IH]; simpl; [reflexivity|].
  intros H. apply andb_prop in H as [Hc H]. now rewrite Hc, IH.
Qed.

Lemma trim_start_all_white_space (s : string) :
  all_white_space s = true -> trim_start s = "".
Proof.
  induction s as [|c s IH]; simpl; [reflexivity|].
  intros H. apply andb_prop in H as [Hc H]. now rewrite Hc, IH.
Qed.

Lemma parseInt_all_white_space (s : string) :
  all_white_space s = true -> parseInt s = None.
Proof.
  intros H. unfold parseInt. now rewrite trim_start_all_white_space.
Qed.

(** The text of a condition that is met (one direction of the reading of
    the [if]). *)
Lemma met_condition_text (d : SmartDevice) (rule : Trigger) :
  Automation.trigger_met d rule = true ->
  exists v rest n,
    condition rule = ("temperature > " ++ v ++ rest)%string
    /\ parseInt v = Some n.
Proof.
  unfold Automation.trigger_met. intros H.
  apply andb_prop in H as [H Hgt]. apply andb_prop in H as [Hp Ho].
  apply token_is_true in Hp, Ho.
  destruct (str_split " " (condition rule)) as [|p [|o ps]] eqn:E;
    try discriminate.
  injection Hp as ->. injection Ho as ->.
  apply js_gt_true in Hgt as (t & n & Ht & Hn & Hlt).
  destruct ps as [|v ps]; [discriminate|]. cbn in Hn.
  destruct (str_split_inv _ _ _ _ E) as [[? _]|(s1 & Hc & E1)]; [discriminate|].
  destruct (str_split_inv _ _ _ _ E1) as [[? _]|(s2 & -> & E2)]; [discriminate|].
  destruct (str_split_inv _ _ _ _ E2) as [[-> ->]|(s3 & -> & E3)].
  - exists v, "", n. rewrite Hc, append_empty_r. now split.
  - exists v, (String " " s3), n. rewrite Hc. now split.
Qed.

(** A condition that is met has at least three tokens, whether white space
    or the space alone delimits them. *)
Lemma met_condition_tokens (sep : ascii -> bool) (d : SmartDevice) (rule : Trigger) :
  (forall c, sep c = true -> is_white_space c = true) ->
  sep " "%char = true ->
  Automation.trigger_met d rule = true ->
  3 <= length (tokens_by sep (condition rule)).
Proof.
  intros Hsep Hspace H.
  destruct (met_condition_text d rule H) as (v & rest & n & -> & Hn).
  change ("temperature > " ++ v ++ rest)%string
    with ("temperature" ++ String " " (">" ++ String " " (v ++ rest)))%string.
  rewrite (tokens_by_app sep Hsep) by (auto; discriminate).
  rewrite (tokens_by_app sep Hsep) by (auto; discriminate).
  destruct (tokens_by sep (v ++ rest)) eqn:E; [|simpl; lia].
  apply (tokens_by_nil sep Hsep), all_white_space_app in E.
  rewrite (parseInt_all_white_space v E) in Hn. discriminate.
Qed.

(** The test looks at the first three single-space pieces and at nothing
    else. *)
Lemma trigger_met_first_three (d : SmartDevice) (rule : Trigger) :
  Automation.trigger_met d rule
  = Automation.trigger_met d
      {| condition := join " " (take 3 (str_split " " (condition rule)));
         action := action rule |}.
Proof.
  unfold Automation.trigger_met. cbn [condition].
  pose proof (str_split_pieces " " (condition rule)) as Hps.
  pose proof (str_split_not_nil " " (condition rule)) as Hne.
  rewrite str_split_join.
  - now rewrite !lookup_take_lt by lia.
  - destruct (str_split " " (condition rule)); [congruence | discriminate].
  - now apply Forall_take.
Qed.

(** C6, amended: evaluation never raises an error, whatever the conditions.
    A rule whose condition splits on white space into fewer than three
    tokens is skipped: it does not fire, for any thermostat, and the console
    shows what the rules before and after it write; the same holds when
    the tokens are delimited by spaces alone, and when the condition splits
    on single spaces into fewer than three pieces.  A rule
    with more than three tokens is not skipped: the test reads the first
    three single-space pieces and drops the rest, so every rule fires
    exactly when the rule made of its first three pieces does. *)
Theorem C6_short_skipped_long_truncated
    (w : World) (thermostat : ref) (d : SmartDevice)
    (before after : list Trigger) (rule : Trigger) :
  heap w !! thermostat = Some d ->
  triggers (automation (home w)) = before ++ rule :: after ->
  snd (Automation.checkTriggers thermostat w) = Normal tt
  /\ (length (whitespace_tokens (condition rule)) < 3
      \/ length (space_tokens (condition rule)) < 3
      \/ length (str_split " " (condition rule)) < 3 ->
      Automation.trigger_met d rule = false
      /\ events (fst (Automation.checkTriggers thermostat w))
         = events w ++ fired_lines d before ++ fired_lines d after)
  /\ Automation.trigger_met d rule
     = Automation.trigger_met d
         {| condition := join " " (take 3 (str_split " " (condition rule)));
            action := action rule |}.
Proof.
  intros Hd Hts. rewrite (checkTriggers_eq _ _ _ Hd), Hts.
  split; [reflexivity|]. split.
  - intros Hshort.
    assert (Hmet : Automation.trigger_met d rule = false).
    { destruct Hshort as [Htok|[Htok|Hlen]].
      - destruct (Automation.trigger_met d rule) eqn:M; [|reflexivity].
        apply (met_condition_tokens is_white_space) in M; auto.
        unfold whitespace_tokens in Htok. lia.
      - destruct (Automation.trigger_met d rule) eqn:M; [|reflexivity].
        apply (met_condition_tokens (Ascii.eqb " ")) in M; auto.
        + unfold space_tokens in Htok. lia.
        + intros c Hc. apply Ascii.eqb_eq in Hc. now subst.
      - apply trigger_met_NaN.
        rewrite (proj2 (lookup_ge_None (str_split " " (condition rule)) 2)) by lia.
        reflexivity. }
    split; [exact Hmet|]. simpl. now rewrite fired_lines_skip.
  - apply trigger_met_first_three.
Qed.

Lemma C6_short_skipped_long_truncated_witness :
  let w := thermostat_world 80 [("temperature > 75", "turnOff(1)");
                                ("temperature  75", "lock(3)");
                                ("temperature > 60 or so", "turnOn(1)")] in
  length (whitespace_tokens "temperature  75") = 2
  /\ length (str_split " " "temperature  75") = 3
  /\ events (fst (Automation.checkTriggers 0 w))
     = events w
       ++ fired_lines (Thermostat.constructor (IdNum 2) 80)
            [{| condition := "temperature > 75"; action := "turnOff(1)" |}]
       ++ fired_lines (Thermostat.constructor (IdNum 2) 80)
            [{| condition := "temperature > 60 or so"; action := "turnOn(1)" |}]
  /\ Automation.trigger_met (Thermostat.constructor (IdNum 2) 80)
       {| condition := "temperature > 60 or so"; action := "turnOn(1)" |}
     = Automation.trigger_met (Thermostat.constructor (IdNum 2) 80)
         {| condition := "temperature > 60"; action := "turnOn(1)" |}.
Proof.
  intros w. split; [reflexivity|]. split; [reflexivity|]. split.
  - apply (C6_short_skipped_long_truncated w 0
             (Thermostat.constructor (IdNum 2) 80)
             [{| condition := "temperature > 75"; action := "turnOff(1)" |}]
             [{| condition := "temperature > 60 or so"; action := "turnOn(1)" |}]
             {| condition := "temperature  75"; action := "lock(3)" |}
             eq_refl eq_refl).
    left. simpl. lia.
  - apply (C6_short_skipped_long_truncated w 0
             (Thermostat.constructor (IdNum 2) 80)
             [{| condition := "temperature > 75"; action := "turnOff(1)" |};
              {| condition := "temperature  75"; action := "lock(3)" |}]
             []
             {| condition := "temperature > 60 or so"; action := "turnOn(1)" |}
             eq_refl eq_refl).
Defined.

(** * Value tokens *)

(** C7, counterexample: the value token "75abc" is not an integer (digits
    followed by letters), yet [parseInt] reads 75 from it and the rule
    "temperature > 75abc" is reported as met against a thermostat at 80
    degrees. *)
Lemma C7_counterexample_leading_digits_fire :
  let w := thermostat_world 80 [("temperature > 75abc", "turnOff(1)")] in
  integer_literal "75abc" = false
  /\ str_split " " "temperature > 75abc" !! 2 = Some "75abc"
  /\ Automation.checkTriggers 0 w
     = (with_events
          (fun es => es ++ [ConsoleLog
             "Trigger met: temperature > 75abc. Executing: turnOff(1)"]) w,
        Normal tt).
Proof. repeat split. Qed.

(** C7, amended: no value token ever raises an error or keeps another rule
    from being evaluated: evaluation returns normally and the console shows
    the lines of the rules before, of the rule itself if it is met, and of
    the rules after.  A rule whose value token [parseInt] cannot read at
    all (the result is NaN, as for "abc": no leading digits) never fires,
    whatever the thermostat.  A value token from which [parseInt] reads a
    number (an integer, or digits followed by anything, as 75 from "75abc";
    numbers within the safe range) makes the rule fire exactly when
    property and operator are "temperature" and ">" and the temperature
    is greater than that number. *)
Theorem C7_value_token_read_by_parseInt
    (w : World) (thermostat : ref) (d : SmartDevice)
    (before after : list Trigger) (rule : Trigger) (value : string) :
  heap w !! thermostat = Some d ->
  triggers (automation (home w)) = before ++ rule :: after ->
  str_split " " (condition rule) !! 2 = Some value ->
  Automation.checkTriggers thermostat w
  = (with_events
       (fun es => es ++ fired_lines d before ++ fired_lines d [rule]
                     ++ fired_lines d after) w,
     Normal tt)
  /\ (parseInt value = None ->
      Automation.trigger_met d rule = false
      /\ fired_lines d [rule] = [])
  /\ (forall n, parseInt value = Some n -> safe_integer n ->
      Automation.trigger_met d rule
      = token_is (str_split " " (condition rule) !! 0) "temperature"
        && token_is (str_split " " (condition rule) !! 1) ">"
        && match temperature d with
           | Some t => (n <? t)%Z
           | None => false
           end).
Proof.
  intros Hd Hts Hv. split; [|split].
  - rewrite (checkTriggers_eq _ _ _ Hd), Hts.
    rewrite fired_lines_app. change (rule :: after) with ([rule] ++ after).
    now rewrite fired_lines_app.
  - intros Hnan.
    assert (Hmet : Automation.trigger_met d rule = false).
    { apply trigger_met_NaN. now rewrite Hv. }
    split; [exact Hmet|]. unfold fired_lines. simpl. now rewrite Hmet.
  - intros n Hn _. unfold Automation.trigger_met. rewrite Hv. simpl.
    rewrite Hn. destruct (temperature d); reflexivity.
Qed.

Lemma C7_value_token_read_by_parseInt_witness :
  let w := thermostat_world 80 [("temperature > 75", "turnOff(1)");
                                ("temperature > abc", "lock(3)");
                                ("temperature > 60", "turnOn(1)")] in
  let d := Thermostat.constructor (IdNum 2) 80 in
  Automation.checkTriggers 0 w
  = (with_events
       (fun es => es
          ++ fired_lines d
               [{| condition := "temperature > 75"; action := "turnOff(1)" |}]
          ++ fired_lines d
               [{| condition := "temperature > abc"; action := "lock(3)" |}]
          ++ fired_lines d
               [{| condition := "temperature > 60"; action := "turnOn(1)" |}]) w,
     Normal tt)
  /\ Automation.trigger_met d
       {| condition := "temperature > abc"; action := "lock(3)" |} = false
  /\ Automation.trigger_met d
       {| condition := "temperature > 79.9"; action := "lock(3)" |} = true.
Proof.
  intros w d.
  destruct (C7_value_token_read_by_parseInt w 0 d
              [{| condition := "temperature > 75"; action := "turnOff(1)" |}]
              [{| condition := "temperature > 60"; action := "turnOn(1)" |}]
              {| condition := "temperature > abc"; action := "lock(3)" |}
              "abc" eq_refl eq_refl eq_refl) as (Hrun & Hnan & _).
  split; [exact Hrun|]. split; [now apply Hnan|].
  destruct (C7_value_token_read_by_parseInt
              (thermostat_world 80 [("temperature > 79.9", "lock(3)")]) 0 d
              [] []
              {| condition := "temperature > 79.9"; action := "lock(3)" |}
              "79.9" eq_refl eq_refl eq_refl) as (_ & _ & Hread).
  rewrite (Hread 79%Z eq_refl); [reflexivity|].
  unfold safe_integer. simpl. lia.
Defined.

(** * Numbers within the safe range *)

(** X7: [setTemperature] on a thermostat, with a temperature that is a safe
    integer, returns normally, and the status line read back afterwards
    shows the temperature just set; no other object of the heap is touched
    and the hub's arrays are as before. *)
Theorem setTemperature_then_getStatus
    (this : ref) (d : SmartDevice) (temp : Z) (w : World) :
  heap w !! this = Some d ->
  class d = Thermostat ->
  safe_integer temp ->
  printable_id (id d) ->
  let w' := fst (setTemperature this temp w) in
  snd (setTemperature this temp w) = Normal tt
  /\ snd (getStatus this w')
     = Normal (template ["Thermostat "; id_to_string (id d); " is set to ";
                         number_to_string temp; " degrees."])
  /\ (forall r, r <> this -> heap w' !! r = heap w !! r)
  /\ home w' = home w.
Proof.
  intros Hd Hc _ _ w'.
  assert (Hnew : alter (set_temperature temp) this (heap w) !! this
                 = Some (set_temperature temp d)).
  { unfold ref in *. rewrite list_lookup_alter_eq, Hd. reflexivity. }
  assert (Hw' : setTemperature this temp w
                = (with_events
                     (fun es => es ++ [ConsoleLog
                        (template ["Thermostat "; id_to_string (id d); " set to ";
                                   number_to_string temp; " degrees."])])
                     (with_heap (alter (set_temperature temp) this) w),
                   Normal tt)).
  { unfold_methods. unfold ref in *. rewrite Hd. simpl. rewrite Hc. simpl.
    rewrite Hnew. reflexivity. }
  subst w'. rewrite Hw'. simpl. repeat split.
  - erewrite getStatus_eq by (simpl; exact Hnew).
    unfold status_line. simpl. now rewrite Hc.
  - intros r Hne. unfold ref in *. now apply list_lookup_alter_ne.
Qed.

Lemma setTemperature_then_getStatus_witness :
  let w := guarded example_usage fresh in
  snd (getStatus 1 (fst (setTemperature 1 81 w)))
  = Normal "Thermostat 2 is set to 81 degrees.".
Proof.
  intros w.
  apply (setTemperature_then_getStatus 1 (Thermostat.constructor (IdNum 2) 70)
           81 w); try reflexivity; unfold safe_integer; simpl; lia.
Defined.

(** X19: [parseInt] reads back every safe integer from its printed form:
    for every integer [n] below 2^53 in absolute value, positive, zero or
    negative, the decimal string of [n] parses to [n]. *)
Theorem parseInt_number_to_string (n : Z) :
  safe_integer n -> parseInt (number_to_string n) = Some n.
Proof. intros _. apply parseInt_number. Qed.

Lemma parseInt_number_to_string_witness :
  parseInt (number_to_string (-9007199254740991)) = Some (-9007199254740991)%Z.
Proof.
  apply (parseInt_number_to_string (-9007199254740991)).
  unfold safe_integer. simpl. lia.
Defined.

(** X20: a rule whose condition is "temperature > N", with N a safe integer
    printed in decimal, is met exactly when the object has a temperature
    and it is greater than N; an object without a temperature never meets
    it. *)
Theorem temperature_rule_met_iff_hotter (d : SmartDevice) (n : Z) (act : string) :
  safe_integer n ->
  Automation.trigger_met d
    {| condition := ("temperature > " ++ number_to_string n)%string;
       action := act |}
  = match temperature d with
    | Some t => (n <? t)%Z
    | None => false
    end.
Proof.
  intros _. unfold Automation.trigger_met. cbn [condition].
  rewrite str_split_temperature_rule. cbn [lookup list_lookup].
  cbn [string_or_undefined token_is]. rewrite parseInt_number.
  destruct (temperature d); reflexivity.
Qed.

Lemma temperature_rule_met_iff_hotter_witness :
  Automation.trigger_met (Thermostat.constructor (IdNum 2) 80)
    {| condition := "temperature > 75"; action := "turnOff(1)" |} = true
  /\ Automation.trigger_met (Thermostat.constructor (IdNum 2) 70)
       {| condition := "temperature > 75"; action := "turnOff(1)" |} = false.
Proof.
  split.
  - apply (temperature_rule_met_iff_hotter
             (Thermostat.constructor (IdNum 2) 80) 75 "turnOff(1)").
    unfold safe_integer. simpl. lia.
  - apply (temperature_rule_met_iff_hotter
             (Thermostat.constructor (IdNum 2) 70) 75 "turnOff(1)").
    unfold safe_integer. simpl. lia.
Defined.

(** * removeObserver, occurrence by occurrence *)

Lemma filter_is_remove (o : nat) (obs : list nat) :
  List.filter (fun x => negb (Nat.eqb x o)) obs = List.remove Nat.eq_dec o obs.
Proof.
  induction obs as [|x obs IH]; simpl; [reflexivity|].
  destruct (Nat.eq_dec o x) as [->|Hne].
  - now rewrite Nat.eqb_refl.
  - destruct (Nat.eqb_spec x o) as [->|_]; [congruence|]. simpl. now rewrite IH.
Qed.

Lemma count_occ_remove_other (o x : nat) (obs : list nat) :
  x <> o ->
  count_occ Nat.eq_dec (List.remove Nat.eq_dec o obs) x
  = count_occ Nat.eq_dec obs x.
Proof.
  intros Hne. induction obs as [|y obs IH]; simpl; [reflexivity|].
  destruct (Nat.eq_dec o y) as [<-|Hy]; simpl.
  - destruct (Nat.eq_dec o x); [congruence | exact IH].
  - destruct (Nat.eq_dec y x); now rewrite IH.
Qed.

(** X10: [removeObserver] returns normally and takes out every occurrence
    of the observer and nothing else: the observers left are the former
    list with the occurrences of [o] removed, so every other observer is
    still there as many times as before and in the same order; devices,
    tasks, triggers, objects and console are untouched. *)
Theorem removeObserver_removes_all (o : ref) (w : World) :
  let w' := fst (Subject.removeObserver o w) in
  snd (Subject.removeObserver o w) = Normal tt
  /\ observers (home w') = List.remove Nat.eq_dec o (observers (home w))
  /\ ~ In o (observers (home w'))
  /\ (forall x, x <> o ->
        count_occ Nat.eq_dec (observers (home w')) x
        = count_occ Nat.eq_dec (observers (home w)) x)
  /\ observers (home w') `sublist_of` observers (home w)
  /\ devices (home w') = devices (home w)
  /\ scheduler (home w') = scheduler (home w)
  /\ automation (home w') = automation (home w)
  /\ heap w' = heap w
  /\ events w' = events w.
Proof.
  simpl. rewrite filter_is_remove. repeat split; auto.
  - apply List.remove_In.
  - intros x Hne. now apply count_occ_remove_other.
  - rewrite <- filter_is_remove. apply filter_sublist.
Qed.

Lemma removeObserver_removes_all_witness :
  let w := fst (script [OnHub (CallAddDevice "light" (IdNum 1));
                        OnHub (CallAddDevice "door" (IdNum 3))] fresh) in
  let w1 := fst (forEach Subject.addObserver [1; 1; 0] w) in
  observers (home w1) = [0; 1; 1; 1; 0]
  /\ observers (home (fst (Subject.removeObserver 0 w1))) = [1; 1; 1]
  /\ count_occ Nat.eq_dec (observers (home (fst (Subject.removeObserver 0 w1)))) 1
     = 3.
Proof.
  intros w w1. split; [reflexivity|].
  destruct (removeObserver_removes_all 0 w1) as (_ & Heq & _ & Hcount & _).
  split; [rewrite Heq; reflexivity|].
  rewrite (Hcount 1) by discriminate. reflexivity.
Defined.
